(** * parse_pricebook: line classification, section tracking, row parsing
      and routing of [src/data/parse_pricebook.py]

    Text model.  A Python [str] is a sequence of Unicode code points.  This
    development covers the strings whose code points lie in U+0000..U+00FF:
    a Rocq [ascii] is read as the code point with that number, so the pound
    sign U+00A3 is the single character [pound] (and not its two UTF-8
    bytes), and [String.length] is Python's [len].  The character classes
    below ([str.isspace], [str.isdigit], the regex classes [\s] and [\d],
    [str.lower], [str.upper]) are CPython's on that range.

    Numbers.  [int] is [Z].  [float(s)] is kept as the exact rational the
    decimal text denotes; binary64 rounding is modelled only where it decides
    control flow, namely the comparison [price == 0.0] (see [float_is_zero]).
    The interpreter's optional limit on the length of integer literals is
    not modelled. *)

From Stdlib Require Import Bool Ascii String List ZArith QArith Lia.
Import ListNotations.
Open Scope string_scope.

(** ** Characters *)

Definition code (c : ascii) : N := N_of_ascii c.

Definition in_range (lo hi : N) (c : ascii) : bool :=
  ((lo <=? code c) && (code c <=? hi))%N.

(** U+00A3 POUND SIGN. *)
Definition pound : ascii := ascii_of_N 163.

(** [str.isspace] per character, also the whitespace of [str.strip()],
    [str.split()] and of [\s] in a [str] pattern: U+0009..U+000D,
    U+001C..U+0020, U+0085, U+00A0. *)
Definition isspace (c : ascii) : bool :=
  in_range 9 13 c || in_range 28 32 c || (code c =? 133)%N || (code c =? 160)%N.

(** [\d] in a [str] pattern and the characters [int] and [float] accept as
    digits: the decimal digits, here 0..9. *)
Definition isdecimal (c : ascii) : bool := in_range 48 57 c.

(** [str.isdigit] per character: the decimal digits and the superscripts
    U+00B2, U+00B3, U+00B9. *)
Definition isdigit_char (c : ascii) : bool :=
  isdecimal c || (code c =? 178)%N || (code c =? 179)%N || (code c =? 185)%N.

Definition is_upper_AZ (c : ascii) : bool := in_range 65 90 c.

(** [str.lower] per character: A..Z and U+00C0..U+00DE except U+00D7 move
    up by 32. *)
Definition lower_char (c : ascii) : ascii :=
  if is_upper_AZ c || (in_range 192 222 c && negb (code c =? 215)%N)
  then ascii_of_N (code c + 32) else c.

(** [str.upper] per character, as code points: a..z and U+00E0..U+00FE
    except U+00F7 move down by 32; U+00DF becomes "SS"; U+00B5 and U+00FF
    leave the range (U+039C, U+0178). *)
Definition upper_char (c : ascii) : list N :=
  if in_range 97 122 c || (in_range 224 254 c && negb (code c =? 247)%N)
  then [code c - 32]%N
  else if (code c =? 223)%N then [83; 83]%N
  else if (code c =? 181)%N then [924]%N
  else if (code c =? 255)%N then [376]%N
  else [code c].

(** ** Strings *)

Fixpoint map_string (f : ascii -> ascii) (s : string) : string :=
  match s with
  | EmptyString => EmptyString
  | String c s' => String (f c) (map_string f s')
  end.

Definition lower (s : string) : string := map_string lower_char s.

Fixpoint codes (s : string) : list N :=
  match s with
  | EmptyString => []
  | String c s' => code c :: codes s'
  end.

Fixpoint upper (s : string) : list N :=
  match s with
  | EmptyString => []
  | String c s' => upper_char c ++ upper s'
  end.

(** Python truthiness of a [str]: non-empty. *)
Definition truthy (s : string) : bool :=
  match s with EmptyString => false | String _ _ => true end.

Fixpoint all_chars (p : ascii -> bool) (s : string) : bool :=
  match s with
  | EmptyString => true
  | String c s' => p c && all_chars p s'
  end.

(** [c in s] for a one-character [c]. *)
Fixpoint has_char (c : ascii) (s : string) : bool :=
  match s with
  | EmptyString => false
  | String d s' => Ascii.eqb c d || has_char c s'
  end.

(** [needle in hay], on strings. *)
Fixpoint contains (needle hay : string) : bool :=
  prefix needle hay ||
  match hay with
  | EmptyString => false
  | String _ hay' => contains needle hay'
  end.

(** [needle in hay], on code-point sequences. *)
Fixpoint prefix_codes (p l : list N) : bool :=
  match p, l with
  | [], _ => true
  | _ :: _, [] => false
  | a :: p', b :: l' => (a =? b)%N && prefix_codes p' l'
  end.

Fixpoint contains_codes (needle hay : list N) : bool :=
  prefix_codes needle hay ||
  match hay with
  | [] => false
  | _ :: hay' => contains_codes needle hay'
  end.

(** [s.lstrip(chars)], [s.rstrip(chars)] and [s.strip(chars)] with the
    character set given as a predicate. *)
Fixpoint lstrip_by (p : ascii -> bool) (s : string) : string :=
  match s with
  | EmptyString => EmptyString
  | String c s' => if p c then lstrip_by p s' else s
  end.

Fixpoint rstrip_by (p : ascii -> bool) (s : string) : string :=
  match s with
  | EmptyString => EmptyString
  | String c s' =>
      match rstrip_by p s' with
      | EmptyString => if p c then EmptyString else String c EmptyString
      | r => String c r
      end
  end.

Definition strip_by (p : ascii -> bool) (s : string) : string :=
  rstrip_by p (lstrip_by p s).

(** [s.strip()]. *)
Definition strip (s : string) : string := strip_by isspace s.

(** [s.split()]: the maximal runs of non-whitespace characters.  [word] is
    the run being read, or [None] between runs. *)
Fixpoint split_from (word : option string) (s : string) : list string :=
  match s with
  | EmptyString => match word with Some w => [w] | None => [] end
  | String c s' =>
      if isspace c
      then match word with
           | Some w => w :: split_from None s'
           | None => split_from None s'
           end
      else match word with
           | Some w => split_from (Some (w ++ String c EmptyString)) s'
           | None => split_from (Some (String c EmptyString)) s'
           end
  end.

Definition split (s : string) : list string := split_from None s.

(** [s.split(sep)] for a one-character separator: every separator cuts,
    empty pieces are kept. *)
Fixpoint split_on_from (sep : ascii) (piece : string) (s : string) : list string :=
  match s with
  | EmptyString => [piece]
  | String c s' =>
      if Ascii.eqb c sep then piece :: split_on_from sep EmptyString s'
      else split_on_from sep (piece ++ String c EmptyString) s'
  end.

Definition split_on (sep : ascii) (s : string) : list string :=
  split_on_from sep EmptyString s.

(** [s[a:b]] for [0 <= a] and [0 <= b]; empty when [b <= a]. *)
Definition slice (a b : nat) (s : string) : string := substring a (b - a) s.

(** ** Regular expressions

    The two patterns of the source are sequences of single-character
    classes under [*], [+], [?] or no operator.  [match_atoms] is the
    backtracking matcher of [re]: greedy operators try the longest
    repetition first and give characters back while the continuation [k],
    the rest of the pattern, fails. *)

Inductive atom : Type :=
| One (p : ascii -> bool)
| Star (p : ascii -> bool)
| Plus (p : ascii -> bool)
| Opt (p : ascii -> bool).

Section Matcher.
Context {A : Type}.

Definition or_else (x y : option A) : option A :=
  match x with Some _ => x | None => y end.

Fixpoint match_star (p : ascii -> bool) (k : string -> option A) (s : string)
  : option A :=
  match s with
  | EmptyString => k s
  | String c s' => if p c then or_else (match_star p k s') (k s) else k s
  end.

Definition match_atom (a : atom) (k : string -> option A) (s : string)
  : option A :=
  match a, s with
  | One p, String c s' => if p c then k s' else None
  | One _, EmptyString => None
  | Star p, _ => match_star p k s
  | Plus p, String c s' => if p c then match_star p k s' else None
  | Plus _, EmptyString => None
  | Opt p, String c s' => if p c then or_else (k s') (k s) else k s
  | Opt _, EmptyString => k s
  end.

Fixpoint match_atoms (re : list atom) (k : string -> option A) : string -> option A :=
  match re with
  | [] => k
  | a :: re' => match_atom a (match_atoms re' k)
  end.
End Matcher.

(** [$] without [re.MULTILINE]: at the end of the string, or just before a
    newline that ends it. *)
Definition at_dollar (s : string) : option unit :=
  if String.eqb s EmptyString || String.eqb s (String (ascii_of_N 10) EmptyString)
  then Some tt else None.

(** [COMPONENT_ID_PATTERN = re.compile(r'^[A-Z][A-Z0-9]*\d+[A-Z]?$')] *)
Definition COMPONENT_ID_PATTERN : list atom :=
  [ One is_upper_AZ;
    Star (fun c => is_upper_AZ c || in_range 48 57 c);
    Plus isdecimal;
    Opt is_upper_AZ ].

(** [bool(COMPONENT_ID_PATTERN.match(text))] *)
Definition component_id_match (text : string) : bool :=
  match match_atoms COMPONENT_ID_PATTERN at_dollar text with
  | Some _ => true
  | None => false
  end.

(** [PRICE_PATTERN]: the pound sign, [\s*], then group 1 made of
    [[0-9,]+], [\.?] and [\d*]; cut here where group 1 opens. *)
Definition PRICE_PATTERN_head : list atom :=
  [ One (Ascii.eqb pound); Star isspace ].

Definition PRICE_PATTERN_group : list atom :=
  [ Plus (fun c => in_range 48 57 c || Ascii.eqb c ",");
    Opt (Ascii.eqb ".");
    Star isdecimal ].

(** A match object of [PRICE_PATTERN]: [start()] and [group(1)]. *)
Record price_match : Type := {
  m_start : nat;
  m_group1 : string
}.

(** A match of the price pattern that starts at the head of [s]: the text
    of group 1, if any. *)
Definition price_match_here (s : string) : option string :=
  match_atoms PRICE_PATTERN_head
    (fun g =>
       match_atoms PRICE_PATTERN_group
         (fun rest => Some (substring 0 (String.length g - String.length rest) g))
         g)
    s.

(** [PRICE_PATTERN.search(text)]: the match at the leftmost position that
    has one. *)
Fixpoint search_from (pos : nat) (s : string) : option price_match :=
  match price_match_here s with
  | Some g => Some {| m_start := pos; m_group1 := g |}
  | None =>
      match s with
      | EmptyString => None
      | String _ s' => search_from (S pos) s'
      end
  end.

Definition PRICE_PATTERN_search (text : string) : option price_match :=
  search_from 0 text.

(** ** Numbers from text *)

Inductive exn : Type := ValueError.

Inductive result (A : Type) : Type :=
| Returned (a : A)
| Raised (e : exn).
Arguments Returned {A} a.
Arguments Raised {A} e.

(** The number a string of decimal digits denotes. *)
Fixpoint digits_value (acc : Z) (s : string) : Z :=
  match s with
  | EmptyString => acc
  | String c s' => digits_value (10 * acc + (Z.of_N (code c) - 48)) s'
  end.

(** [int(s)]: [ValueError] unless [s] is a non-empty run of decimal digits
    (signs, blanks and underscores do not occur where the source calls it:
    its argument has passed [isdigit]). *)
Definition int_of_string (s : string) : result Z :=
  if truthy s && all_chars isdecimal s then Returned (digits_value 0 s)
  else Raised ValueError.

(** [s.isdigit()] *)
Definition isdigit (s : string) : bool := truthy s && all_chars isdigit_char s.

(** [s.replace(',', '')] *)
Fixpoint remove_commas (s : string) : string :=
  match s with
  | EmptyString => EmptyString
  | String c s' =>
      if Ascii.eqb c "," then remove_commas s' else String c (remove_commas s')
  end.

(** The text before the first ".", and the text after it if there is one. *)
Fixpoint cut_at_dot (s : string) : string * option string :=
  match s with
  | EmptyString => (EmptyString, None)
  | String c s' =>
      if Ascii.eqb c "." then (EmptyString, Some s')
      else let (i, f) := cut_at_dot s' in (String c i, f)
  end.

(** [float(s)] on the texts group 1 of the price pattern can hold once the
    commas are gone, digits with at most one ".": the exact value
    [digits / 10^k], or [None] for [ValueError] (no digit at all). *)
Definition float_of_string (s : string) : option Q :=
  let (i, f) := cut_at_dot s in
  let f := match f with Some f => f | None => EmptyString end in
  if truthy (i ++ f) && all_chars isdecimal (i ++ f)
  then Some (digits_value 0 (i ++ f) # Z.to_pos (10 ^ Z.of_nat (String.length f)))
  else None.

(** [x == 0.0] for the binary64 nearest to a rational [q >= 0]: rounding to
    nearest, ties to even, gives zero exactly up to half the least
    subnormal, [2^-1075]. *)
Definition float_is_zero (q : Q) : bool := Qle_bool q (1 # 2 ^ 1075).

(** ** The program *)

(** One entry of [FILE_MAPPING]. *)
Record config : Type := {
  sections : list string;
  subsections : list string;
  keywords : list string
}.

(** [FILE_MAPPING], a [dict] read in insertion order by [.items()]. *)
Definition FILE_MAPPING : list (string * config) :=
  [ ("core_packs.csv",
     {| sections := ["Core Packs"];
        subsections := ["Full System"; "Part System"];
        keywords := [] |});
    ("electrics_and_waste.csv",
     {| sections := ["Electrics/Waste/Filling Loops/GDA/Remote PRVs"; "Electrics"; "Waste"];
        subsections := ["Electrics/Waste/Filling Loops/GDA/Remote PRVs"];
        keywords := ["filling loop"; "remote prv"; "waste collection"; "electrics"] |});
    ("controls_and_stats.csv",
     {| sections := ["Controls"; "Wiring Centres"; "Stats"; "Timers"; "Programmers"; "CO Alarms"];
        subsections := ["Controls ***UPGRADE ONLY JOBS"];
        keywords := ["wiring"; "stat"; "timer"; "programmer"; "thermostat"; "control"] |});
    ("smart_hive.csv",
     {| sections := ["Smart / Hive"; "Hive"; "Smart"; "Hive Active Heating";
                     "Hive additional Products"; "Hive View"; "Hive TRV"; "Hive Hubs"];
        subsections := ["Hive Active Heating"; "Hive TRV"; "Hive Hubs"; "Product Bundles";
                        "Frames and Stand"; "Boiler IQ"];
        keywords := ["hive"; "boiler iq"] |});
    ("boilers_combi_ng.csv",
     {| sections := ["Boilers"; "BOILERS"];
        subsections := ["Combi Natural Gas"];
        keywords := [] |});
    ("boilers_combi_lpg.csv",
     {| sections := ["Boilers"; "BOILERS"];
        subsections := ["Combi LPG"];
        keywords := [] |});
    ("boilers_other.csv",
     {| sections := ["Boilers"; "BOILERS"];
        subsections := ["System"; "Regular"; "System Natural Gas"; "System LPG";
                        "Regular Natural Gas"; "Regular LPG";
                        "Conventional Natural Gas"; "Conventional LPG"];
        keywords := [] |});
    ("heat_pumps_and_ashp_labour.csv",
     {| sections := ["Heat Pumps"; "ASHP"; "Air Source Heat Pump"];
        subsections := ["Radiator Installation Packs"; "Radiator Installation Bundles";
                        "Fire, Flue Liner, & Multipoint Installation Packs";
                        "Radiator Accessories"];
        keywords := ["heat pump"; "ashp"; "arothem"] |});
    ("radiators_and_valves.csv",
     {| sections := ["Radiator Valves"; "Myson Radiators"; "Radiators"; "Price Test"];
        subsections := ["Radiator Valves";
                        "Powercleanse, Powerflush, Magnetic Filter, & Combisave";
                        "Stelrad Radiators"; "Myson Radiators"; "Radiator Placeholders";
                        "Classic Towel Warmers"];
        keywords := ["radiator"; "powerflush"; "stelrad"; "myson"; "towel warmer"] |});
    ("flues_worcester.csv",
     {| sections := ["Worcester Combi Conventional and System Boilers"; "Flues";
                     "Worcester Flues"; "BOILERS"];
        subsections := ["Flue Components"; "Flue Components Continued";
                        "Worcester 440CDi Highflow"; "Vaillant EcoTec"];
        keywords := ["flue"; "plume"; "elbow"] |});
    ("heat_pump_accessories.csv",
     {| sections := ["ASHP Accessories"; "Trunking"; "Insulation"; "Mixergy"; "Buffer Tanks"];
        subsections := [];
        keywords := ["trunking"; "insulation"; "mixergy"; "buffer tank"] |});
    ("extras_and_charges.csv",
     {| sections := ["Extras"; "Delivery"; "Assessment"; "Premium Install"];
        subsections := [];
        keywords := ["delivery charge"; "assessment"; "premium install"; "cashback"] |});
    ("price_alignment.csv",
     {| sections := ["Price Alignment"];
        subsections := [];
        keywords := [] |}) ].

Definition is_component_id (text : string) : bool :=
  if negb (truthy text) then false
  else
    let text := strip text in
    component_id_match text.

Definition heading_keywords : list string :=
  [ "Core Packs"; "Boiler"; "Heat Pump"; "ASHP"; "Radiator"; "Hive";
    "Smart"; "Flue"; "Extra"; "Price Alignment"; "Combi"; "System";
    "Regular"; "Natural Gas"; "LPG"; "Controls"; "Electrics"; "Waste";
    "Filling Loop"; "Worcester"; "Vaillant"; "Active Heating"; "TRV";
    "Full System"; "Part System"; "Wiring"; "Stats"; "Timer"; "Programmer" ].

(** [text.rstrip('0').strip()] *)
Definition clean_heading (text : string) : string :=
  strip (rstrip_by (Ascii.eqb "0") text).

Definition is_heading (text : string) : bool :=
  if negb (truthy text) then false
  else
    let text := strip text in
    if is_component_id text then false
    else if (100 <? String.length text)%nat then false
    else if has_char pound text then false
    else
      let text_clean := clean_heading text in
      existsb (fun keyword => contains (lower keyword) (lower text_clean))
              heading_keywords.

Definition extract_price (text : string) : Q :=
  match PRICE_PATTERN_search text with
  | Some m =>
      let price_str := remove_commas (m_group1 m) in
      match float_of_string price_str with
      | Some x => x
      | None => 0
      end
  | None => 0
  end.

Definition extract_lead_time (text : string) : result Z :=
  let parts := split (strip text) in
  match parts with
  | [] => Returned 0%Z
  | _ :: _ =>
      let last := List.last parts EmptyString in
      if isdigit last then int_of_string last else Returned 0%Z
  end.

(** The [dict] that [parse_component_row] builds. *)
Record row : Type := {
  section : string;
  subsection : string;
  component_id : string;
  description : string;
  selling_price_gbp : Q;
  lead_time_days : Z
}.

(** The character set that [desc_text.strip] is given: the double quote
    U+0022 and the single quote U+0027. *)
Definition is_quote (c : ascii) : bool :=
  (code c =? 34)%N || (code c =? 39)%N.

Definition parse_component_row (text current_section current_subsection : string)
  : result (option row) :=
  let text := strip text in
  let parts := split text in
  if (List.length parts <? 3)%nat then Returned None
  else
    let component_id := List.hd EmptyString parts in
    if negb (is_component_id component_id) then Returned None
    else
      let price := extract_price text in
      if float_is_zero price then Returned None
      else
        match extract_lead_time text with
        | Raised e => Raised e
        | Returned lead_time =>
            match PRICE_PATTERN_search text with
            | None => Returned None
            | Some price_match =>
                let price_start := m_start price_match in
                let desc_text :=
                  strip (slice (String.length component_id) price_start text) in
                let desc_text := strip_by is_quote desc_text in
                Returned (Some {| section := current_section;
                                  subsection := current_subsection;
                                  component_id := component_id;
                                  description := desc_text;
                                  selling_price_gbp := price;
                                  lead_time_days := lead_time |})
            end
        end.

(** [a.lower() in b.lower() or b.lower() in a.lower()] *)
Definition overlaps (a b : string) : bool :=
  contains (lower a) (lower b) || contains (lower b) (lower a).

(** The inner loop over [config['sections']] that sets [section_match]. *)
Definition section_match (cfg : config) (section : string) : bool :=
  existsb (fun s => overlaps s section) (sections cfg).

(** The loop over [config['subsections']] of the first two passes. *)
Definition subsection_match (cfg : config) (subsection : string) : bool :=
  existsb (fun ss => overlaps ss subsection) (subsections cfg).

(** The loop over [config['keywords']] of the third pass. *)
Definition keyword_match (cfg : config) (subsection : string) : bool :=
  existsb (fun keyword => contains (lower keyword) (lower subsection)) (keywords cfg).

(** Python truthiness of a [list]: non-empty. *)
Definition nonempty {A : Type} (l : list A) : bool :=
  match l with [] => false | _ :: _ => true end.

(** The three passes of [determine_output_file] over [mapping.items()];
    [None] when a pass falls through. *)
Fixpoint first_pass (mapping : list (string * config)) (section subsection : string)
  : option string :=
  match mapping with
  | [] => None
  | (filename, cfg) :: rest =>
      if section_match cfg section then
        if negb (nonempty (subsections cfg)) then Some filename
        else if subsection_match cfg subsection then Some filename
        else first_pass rest section subsection
      else first_pass rest section subsection
  end.

Fixpoint second_pass (mapping : list (string * config)) (subsection : string)
  : option string :=
  match mapping with
  | [] => None
  | (filename, cfg) :: rest =>
      if nonempty (subsections cfg) && subsection_match cfg subsection
      then Some filename
      else second_pass rest subsection
  end.

Fixpoint third_pass (mapping : list (string * config)) (subsection : string)
  : option string :=
  match mapping with
  | [] => None
  | (filename, cfg) :: rest =>
      if nonempty (keywords cfg) && keyword_match cfg subsection
      then Some filename
      else third_pass rest subsection
  end.

Definition determine_output_file (section subsection : string) : string :=
  match first_pass FILE_MAPPING section subsection with
  | Some filename => filename
  | None =>
      match second_pass FILE_MAPPING subsection with
      | Some filename => filename
      | None =>
          match third_pass FILE_MAPPING subsection with
          | Some filename => filename
          | None => "unclassified.csv"
          end
      end
  end.

(** The variables of [parse_pdf] that live across lines and pages.
    [rows_by_file] is a [defaultdict(list)]: keys in order of first use. *)
Record state : Type := {
  rows_by_file : list (string * list row);
  current_section : string;
  current_subsection : string
}.

Definition initial_state : state :=
  {| rows_by_file := []; current_section := ""; current_subsection := "" |}.

(** [rows_by_file[output_file].append(row)] *)
Fixpoint append_row (output_file : string) (r : row) (m : list (string * list row))
  : list (string * list row) :=
  match m with
  | [] => [(output_file, [r])]
  | (f, rs) :: m' =>
      if String.eqb f output_file then (f, (rs ++ [r])%list) :: m'
      else (f, rs) :: append_row output_file r m'
  end.

Definition major_sections : list string :=
  [ "BOILERS"; "CORE PACKS"; "HEAT PUMPS"; "EXTRAS";
    "PRICE ALIGNMENT"; "SMART"; "HIVE" ].

(** [any(ms in line_clean.upper() for ms in major_sections)] *)
Definition is_major (line_clean : string) : bool :=
  existsb (fun ms => contains_codes (codes ms) (upper line_clean)) major_sections.

(** The branch taken when [is_heading(line)] holds. *)
Definition heading_update (st : state) (line : string) : state :=
  let line_clean := clean_heading line in
  if is_major line_clean || negb (truthy (current_section st))
  then {| rows_by_file := rows_by_file st;
          current_section := line_clean;
          current_subsection := "" |}
  else {| rows_by_file := rows_by_file st;
          current_section := current_section st;
          current_subsection := line_clean |}.

(** The body of [for line in lines]. *)
Definition process_line (st : state) (line : string) : result state :=
  let line := strip line in
  if negb (truthy line) || String.eqb line "0" then Returned st
  else if is_heading line then Returned (heading_update st line)
  else
    match parse_component_row line (current_section st) (current_subsection st) with
    | Raised e => Raised e
    | Returned None => Returned st
    | Returned (Some r) =>
        let output_file := determine_output_file (section r) (subsection r) in
        Returned {| rows_by_file := append_row output_file r (rows_by_file st);
                    current_section := current_section st;
                    current_subsection := current_subsection st |}
    end.

Fixpoint process_lines (st : state) (lines : list string) : result state :=
  match lines with
  | [] => Returned st
  | line :: rest =>
      match process_line st line with
      | Raised e => Raised e
      | Returned st' => process_lines st' rest
      end
  end.

(** The body of [for page in pdf.pages], given what [page.extract_text()]
    returned ([None] or a string). *)
Definition process_page (st : state) (text : option string) : result state :=
  match text with
  | None => Returned st
  | Some text =>
      if negb (truthy text) then Returned st
      else process_lines st (split_on (ascii_of_N 10) text)
  end.

Fixpoint process_pages (st : state) (pages : list (option string)) : result state :=
  match pages with
  | [] => Returned st
  | text :: rest =>
      match process_page st text with
      | Raised e => Raised e
      | Returned st' => process_pages st' rest
      end
  end.

(** [parse_pdf], from the texts of the pages in order. *)
Definition parse_pdf (pages : list (option string)) : result (list (string * list row)) :=
  match process_pages initial_state pages with
  | Raised e => Raised e
  | Returned st => Returned (rows_by_file st)
  end.

(** The decision the loop body takes on a stripped line: dropped, sent to
    the heading branch, or handed to [parse_component_row]. *)
Inductive line_class : Type := Heading | DataCandidate | Skip.

Definition classify (line : string) : line_class :=
  if negb (truthy line) || String.eqb line "0" then Skip
  else if is_heading line then Heading
  else DataCandidate.

(** [rows_by_file[filename]] for a key that is present, and
    [filename in rows_by_file]. *)
Fixpoint rows_of (filename : string) (m : list (string * list row)) : option (list row) :=
  match m with
  | [] => None
  | (f, rs) :: m' => if String.eqb f filename then Some rs else rows_of filename m'
  end.

(** [main]: [total_rows = sum(len(rows) for rows in rows_by_file.values())] *)
Definition total_rows (m : list (string * list row)) : nat :=
  list_sum (map (fun kv => List.length (snd kv)) m).

(** [main]: the count printed in the warning, when
    ['unclassified.csv' in rows_by_file]. *)
Definition unclassified_warning (m : list (string * list row)) : option nat :=
  option_map (@List.length row) (rows_of "unclassified.csv" m).

(** [write_csv_files]: the files it opens, in order; an entry whose list is
    empty is passed over. *)
Definition files_written (m : list (string * list row)) : list string :=
  map fst (filter (fun kv => nonempty (snd kv)) m).

(** * Properties *)

(** ** Stripping and splitting *)

(** [s] does not begin with a character of the set [p]. *)
Definition starts_clean (p : ascii -> bool) (s : string) : bool :=
  match s with
  | EmptyString => true
  | String c _ => negb (p c)
  end.

Lemma lstrip_by_clean p s : starts_clean p s = true -> lstrip_by p s = s.
Proof.
  destruct s as [|c s]; simpl; [reflexivity|].
  now destruct (p c).
Qed.

Lemma lstrip_by_starts_clean p s : starts_clean p (lstrip_by p s) = true.
Proof.
  induction s as [|c s IH]; simpl; [reflexivity|].
  destruct (p c) eqn:E; [exact IH|simpl; now rewrite E].
Qed.

Lemma rstrip_by_starts_clean p s :
  starts_clean p s = true -> starts_clean p (rstrip_by p s) = true.
Proof.
  destruct s as [|c s]; simpl; [reflexivity|].
  intros H. destruct (rstrip_by p s); simpl.
  - destruct (p c) eqn:Ec; [discriminate|simpl; now rewrite Ec].
  - exact H.
Qed.

Lemma rstrip_by_idempotent p s : rstrip_by p (rstrip_by p s) = rstrip_by p s.
Proof.
  induction s as [|c s IH]; simpl; [reflexivity|].
  destruct (rstrip_by p s) as [|d r] eqn:E.
  - destruct (p c) eqn:Ec; simpl; [reflexivity|now rewrite Ec].
  - change (rstrip_by p (String c (String d r))) with
      (match rstrip_by p (String d r) with
       | EmptyString => if p c then EmptyString else String c EmptyString
       | r0 => String c r0
       end).
    now rewrite IH.
Qed.

Lemma strip_by_idempotent p s : strip_by p (strip_by p s) = strip_by p s.
Proof.
  unfold strip_by.
  rewrite (lstrip_by_clean p (rstrip_by p (lstrip_by p s))).
  - apply rstrip_by_idempotent.
  - apply rstrip_by_starts_clean, lstrip_by_starts_clean.
Qed.

Lemma strip_idempotent s : strip (strip s) = strip s.
Proof. apply strip_by_idempotent. Qed.

Lemma split_from_lstrip s :
  split_from None (lstrip_by isspace s) = split_from None s.
Proof.
  induction s as [|c s IH]; simpl; [reflexivity|].
  destruct (isspace c) eqn:E; [exact IH|simpl; now rewrite E].
Qed.

Lemma split_from_cons word c s :
  split_from word (String c s) =
  if isspace c
  then match word with
       | Some w => w :: split_from None s
       | None => split_from None s
       end
  else match word with
       | Some w => split_from (Some (w ++ String c EmptyString)) s
       | None => split_from (Some (String c EmptyString)) s
       end.
Proof. reflexivity. Qed.

Lemma split_from_rstrip s :
  forall word, split_from word (rstrip_by isspace s) = split_from word s.
Proof.
  induction s as [|c s IH]; intros word; [reflexivity|].
  simpl rstrip_by.
  destruct (rstrip_by isspace s) as [|d r] eqn:E.
  - rewrite (split_from_cons word c s).
    destruct (isspace c) eqn:Ec.
    + rewrite <- !IH. reflexivity.
    + rewrite (split_from_cons word c EmptyString), Ec.
      destruct word; now rewrite <- IH.
  - rewrite (split_from_cons word c (String d r)), (split_from_cons word c s).
    destruct (isspace c), word; now rewrite IH.
Qed.

(** Stripping a line changes none of its tokens. *)
Lemma split_strip s : split (strip s) = split s.
Proof.
  unfold split, strip, strip_by.
  now rewrite split_from_rstrip, split_from_lstrip.
Qed.

(** ** The matcher against the language of a pattern *)

(** The words an operator accepts. *)
Definition lang_atom (a : atom) (m : string) : Prop :=
  match a with
  | One p => exists c, m = String c EmptyString /\ p c = true
  | Star p => all_chars p m = true
  | Plus p => m <> EmptyString /\ all_chars p m = true
  | Opt p => m = EmptyString \/ exists c, m = String c EmptyString /\ p c = true
  end.

(** The words a pattern accepts: one word per operator, in sequence. *)
Fixpoint lang (re : list atom) (m : string) : Prop :=
  match re with
  | [] => m = EmptyString
  | a :: re' => exists m1 m2, m = m1 ++ m2 /\ lang_atom a m1 /\ lang re' m2
  end.

Lemma append_assoc (a b c : string) : (a ++ b) ++ c = a ++ (b ++ c).
Proof. induction a as [|x a IH]; simpl; [reflexivity|now rewrite IH]. Qed.

Lemma append_empty_r (a : string) : a ++ "" = a.
Proof. induction a as [|x a IH]; simpl; [reflexivity|now rewrite IH]. Qed.

Lemma all_chars_app p a b :
  all_chars p (a ++ b) = all_chars p a && all_chars p b.
Proof.
  induction a as [|x a IH]; simpl; [reflexivity|].
  now rewrite IH, andb_assoc.
Qed.

Section MatcherSpec.
Context {A : Type}.
Implicit Types (k : string -> option A) (s m rest : string).

Lemma or_else_found (x y : option A) :
  or_else x y <> None <-> x <> None \/ y <> None.
Proof.
  destruct x; simpl; split; intros H.
  - left; discriminate.
  - discriminate.
  - now right.
  - now destruct H.
Qed.

(** Some part of [s] taken by the operator leaves a rest [k] accepts. *)
Definition splits_by (L : string -> Prop) k s : Prop :=
  exists m rest, s = m ++ rest /\ L m /\ k rest <> None.

Lemma match_star_spec p k s :
  match_star p k s <> None <-> splits_by (fun m => all_chars p m = true) k s.
Proof.
  induction s as [|c s IH]; simpl.
  - split.
    + intros H. exists EmptyString, EmptyString. auto.
    + intros (m & rest & E & _ & H).
      destruct m; [simpl in E; now subst rest|discriminate].
  - destruct (p c) eqn:Ec.
    + rewrite or_else_found, IH. split.
      * intros [(m & rest & E & Hm & H)|H].
        -- exists (String c m), rest. simpl. rewrite Ec, E. auto.
        -- exists EmptyString, (String c s). auto.
      * intros (m & rest & E & Hm & H). destruct m as [|d m]; simpl in E.
        -- right. now subst rest.
        -- left. injection E as -> ->. simpl in Hm.
           apply andb_prop in Hm. exists m, rest. tauto.
    + split.
      * intros H. exists EmptyString, (String c s). auto.
      * intros (m & rest & E & Hm & H). destruct m as [|d m]; simpl in E.
        -- now subst rest.
        -- injection E as -> ->. simpl in Hm. rewrite Ec in Hm. discriminate.
Qed.

Lemma match_atom_spec a k s :
  match_atom a k s <> None <-> splits_by (lang_atom a) k s.
Proof.
  destruct a as [p|p|p|p]; simpl.
  - destruct s as [|c s].
    + split; [congruence|].
      intros (m & rest & E & (d & -> & _) & _). discriminate.
    + split.
      * intros H. destruct (p c) eqn:Ec; [|congruence].
        exists (String c EmptyString), s. simpl. eauto.
      * intros (m & rest & E & (d & -> & Hd) & H). simpl in E.
        injection E as -> ->. now rewrite Hd.
  - destruct s; apply match_star_spec.
  - destruct s as [|c s].
    + split; [congruence|].
      intros (m & rest & E & (Hm & _) & _). destruct m; [congruence|discriminate].
    + split.
      * intros H. destruct (p c) eqn:Ec; [|congruence].
        apply match_star_spec in H. destruct H as (m & rest & E & Hm & H).
        exists (String c m), rest. simpl. rewrite Ec, E.
        repeat split; auto. discriminate.
      * intros (m & rest & E & (Hne & Hm) & H).
        destruct m as [|d m]; [congruence|]. simpl in E, Hm.
        injection E as -> ->. apply andb_prop in Hm. destruct Hm as [-> Hm].
        apply match_star_spec. exists m, rest. auto.
  - destruct s as [|c s].
    + split.
      * intros H. exists EmptyString, EmptyString. simpl. auto.
      * intros (m & rest & E & _ & H).
        destruct m; [simpl in E; now subst rest|discriminate].
    + split.
      * intros H. destruct (p c) eqn:Ec.
        -- apply or_else_found in H. destruct H as [H|H].
           ++ exists (String c EmptyString), s. simpl. eauto 6.
           ++ exists EmptyString, (String c s). simpl. auto.
        -- exists EmptyString, (String c s). simpl. auto.
      * intros (m & rest & E & [->|(d & -> & Hd)] & H); simpl in E.
        -- subst rest. destruct (p c); [apply or_else_found|]; auto.
        -- injection E as -> ->. rewrite Hd. apply or_else_found. auto.
Qed.

(** The matcher finds a match exactly when some prefix of [s] is a word of
    the pattern and the continuation accepts what follows it. *)
Lemma match_atoms_spec re :
  forall k s, match_atoms re k s <> None <-> splits_by (lang re) k s.
Proof.
  induction re as [|a re IH]; intros k s; simpl.
  - split.
    + intros H. exists EmptyString, s. auto.
    + intros (m & rest & -> & -> & H). exact H.
  - rewrite match_atom_spec. split.
    + intros (m1 & r1 & -> & H1 & H). apply IH in H.
      destruct H as (m2 & rest & -> & H2 & H).
      exists (m1 ++ m2), rest. rewrite append_assoc.
      split; [reflexivity|]. split; [|exact H]. eauto.
    + intros (m & rest & -> & (m1 & m2 & -> & H1 & H2) & H).
      exists m1, (m2 ++ rest). rewrite append_assoc.
      split; [reflexivity|]. split; [exact H1|].
      apply IH. exists m2, rest. auto.
Qed.

(** What the matcher returns is what the continuation returned on the rest
    left by some word of the pattern. *)
Lemma match_star_sound p k s x :
  match_star p k s = Some x ->
  exists m rest, s = m ++ rest /\ all_chars p m = true /\ k rest = Some x.
Proof.
  induction s as [|c s IH]; simpl.
  - intros H. exists EmptyString, EmptyString. auto.
  - destruct (p c) eqn:Ec.
    + destruct (match_star p k s) as [y|]; simpl.
      * intros [= ->]. destruct (IH eq_refl) as (m & rest & -> & Hm & H).
        exists (String c m), rest. simpl. rewrite Ec. auto.
      * intros H. exists EmptyString, (String c s). auto.
    + intros H. exists EmptyString, (String c s). auto.
Qed.

Lemma match_atom_sound a k s x :
  match_atom a k s = Some x ->
  exists m rest, s = m ++ rest /\ lang_atom a m /\ k rest = Some x.
Proof.
  destruct a as [p|p|p|p]; simpl.
  - destruct s as [|c s]; [discriminate|].
    destruct (p c) eqn:Ec; [|discriminate]. intros H.
    exists (String c EmptyString), s. simpl. eauto.
  - destruct s; apply match_star_sound.
  - destruct s as [|c s]; [discriminate|].
    destruct (p c) eqn:Ec; [|discriminate]. intros H.
    apply match_star_sound in H. destruct H as (m & rest & -> & Hm & H).
    exists (String c m), rest. simpl. rewrite Ec.
    repeat split; auto. discriminate.
  - destruct s as [|c s].
    + intros H. exists EmptyString, EmptyString. simpl. auto.
    + destruct (p c) eqn:Ec.
      * destruct (k s) as [y|] eqn:Ek; simpl.
        -- intros [= ->]. exists (String c EmptyString), s. simpl. eauto 6.
        -- intros H. exists EmptyString, (String c s). simpl. auto.
      * intros H. exists EmptyString, (String c s). simpl. auto.
Qed.

Lemma match_atoms_sound re :
  forall k s x,
    match_atoms re k s = Some x ->
    exists m rest, s = m ++ rest /\ lang re m /\ k rest = Some x.
Proof.
  induction re as [|a re IH]; intros k s x; simpl.
  - intros H. exists EmptyString, s. auto.
  - intros H. apply match_atom_sound in H.
    destruct H as (m1 & r1 & -> & H1 & H). apply IH in H.
    destruct H as (m2 & rest & -> & H2 & H).
    exists (m1 ++ m2), rest. rewrite append_assoc.
    split; [reflexivity|]. split; [|exact H]. eauto.
Qed.
End MatcherSpec.

(** ** The component-identifier shape *)

(** The shape in words: one uppercase letter [c], then uppercase letters or
    digits [w], then one or more digits [d], then at most one uppercase
    letter [t]. *)
Definition id_shape (s : string) : Prop :=
  exists c w d t,
    s = String c (w ++ d ++ t) /\
    is_upper_AZ c = true /\
    all_chars (fun x => is_upper_AZ x || isdecimal x) w = true /\
    d <> EmptyString /\ all_chars isdecimal d = true /\
    (t = EmptyString \/ exists u, t = String u EmptyString /\ is_upper_AZ u = true).

Lemma lang_component_id m : lang COMPONENT_ID_PATTERN m <-> id_shape m.
Proof.
  unfold id_shape. simpl. split.
  - intros (m1 & m2 & -> & (c & -> & Hc) & w & m4 & -> & Hw &
            d & m6 & -> & (Hne & Hd) & t & m8 & -> & Ht & ->).
    exists c, w, d, t. rewrite append_empty_r. simpl. auto 7.
  - intros (c & w & d & t & -> & Hc & Hw & Hne & Hd & Ht).
    exists (String c EmptyString), (w ++ d ++ t). split; [reflexivity|].
    split; [eauto|]. exists w, (d ++ t). split; [reflexivity|].
    split; [exact Hw|]. exists d, t. split; [reflexivity|].
    split; [auto|]. exists t, EmptyString. rewrite append_empty_r. auto.
Qed.

Definition newline : string := String (ascii_of_N 10) EmptyString.

(** What [COMPONENT_ID_PATTERN.match] accepts: the shape, or the shape
    followed by one newline. *)
Lemma component_id_match_spec s :
  component_id_match s = true <-> id_shape s \/ exists m, s = m ++ newline /\ id_shape m.
Proof.
  unfold component_id_match.
  assert (D : forall r, at_dollar r <> None <-> r = EmptyString \/ r = newline).
  { intros r. unfold at_dollar.
    change (String (ascii_of_N 10) EmptyString) with newline.
    destruct (String.eqb_spec r EmptyString) as [E1|N1],
             (String.eqb_spec r newline) as [E2|N2]; cbn [orb];
      (split; [intros H | intros H; try discriminate]); auto.
    - now contradiction H.
    - destruct H; contradiction. }
  pose proof (match_atoms_spec COMPONENT_ID_PATTERN at_dollar s) as M.
  destruct (match_atoms COMPONENT_ID_PATTERN at_dollar s) as [u|].
  - split; [intros _|reflexivity].
    destruct (proj1 M ltac:(discriminate)) as (m & rest & -> & Hm & Hr).
    apply lang_component_id in Hm. apply D in Hr. destruct Hr as [->| ->].
    + left. now rewrite append_empty_r.
    + right. eauto.
  - split; [discriminate|]. intros H. exfalso. apply (proj2 M); [|reflexivity].
    destruct H as [H|(m & -> & H)].
    + exists s, EmptyString. rewrite append_empty_r.
      split; [reflexivity|]. split; [now apply lang_component_id|]. apply D. auto.
    + exists m, newline.
      split; [reflexivity|]. split; [now apply lang_component_id|]. apply D. auto.
Qed.

Lemma rstrip_by_last p s :
  forall m c, rstrip_by p s = m ++ String c EmptyString -> p c = false.
Proof.
  induction s as [|x s IH]; intros m c; simpl.
  - destruct m; discriminate.
  - destruct (rstrip_by p s) as [|d r].
    + destruct (p x) eqn:Ex.
      * destruct m; discriminate.
      * destruct m as [|y m]; simpl; intros E.
        -- now injection E as <-.
        -- injection E as _ E. destruct m; discriminate.
    + destruct m as [|y m]; simpl; intros E; [discriminate|].
      injection E as _ E. eapply IH. exact E.
Qed.

Lemma strip_not_newline_ended s m : strip s <> m ++ newline.
Proof.
  unfold strip, strip_by, newline. intros E.
  apply rstrip_by_last in E. discriminate.
Qed.

Lemma id_shape_nonempty s : id_shape s -> truthy s = true.
Proof. now intros (c & w & d & t & -> & _). Qed.

(** [is_component_id] decides the shape of the stripped text. *)
Lemma is_component_id_spec text :
  is_component_id text = true <-> id_shape (strip text).
Proof.
  unfold is_component_id. destruct text as [|c text]; simpl negb; cbv iota.
  - split; [discriminate|]. intros H. apply id_shape_nonempty in H. discriminate.
  - rewrite component_id_match_spec. split; [|now left].
    intros [H|(m & E & _)]; [exact H|]. now apply strip_not_newline_ended in E.
Qed.

(** ** The price pattern *)

Lemma substring_prefix (m rest : string) :
  substring 0 (String.length (m ++ rest) - String.length rest) (m ++ rest) = m.
Proof.
  assert (L : forall a b, String.length (a ++ b) = (String.length a + String.length b)%nat).
  { induction a as [|c a IH]; intros b; simpl; [reflexivity|now rewrite IH]. }
  rewrite L, Nat.add_sub.
  induction m as [|c m IH]; simpl.
  - now destruct rest.
  - now rewrite IH.
Qed.

(** Group 1 of a match is a word of the group's pattern. *)
Lemma price_match_here_group s g :
  price_match_here s = Some g -> lang PRICE_PATTERN_group g.
Proof.
  unfold price_match_here. intros H.
  apply match_atoms_sound in H. destruct H as (_ & g0 & _ & _ & H).
  apply match_atoms_sound in H. destruct H as (m & rest & -> & Hm & [= <-]).
  now rewrite substring_prefix.
Qed.

Lemma search_from_group s :
  forall pos m, search_from pos s = Some m -> lang PRICE_PATTERN_group (m_group1 m).
Proof.
  induction s as [|c s IH]; intros pos m; cbn [search_from].
  - destruct (price_match_here EmptyString) as [g|] eqn:E; [|discriminate].
    intros [= <-]. now apply price_match_here_group in E.
  - destruct (price_match_here (String c s)) as [g|] eqn:E; [|apply IH].
    intros [= <-]. now apply price_match_here_group in E.
Qed.

(** The text handed to [float] holds decimal digits and at most one ".",
    the strings [float_of_string] is about. *)
Lemma price_str_shape text m :
  PRICE_PATTERN_search text = Some m ->
  exists i f,
    remove_commas (m_group1 m) = i ++ f /\
    all_chars isdecimal i = true /\
    (f = EmptyString \/ exists d, f = String "." d /\ all_chars isdecimal d = true).
Proof.
  intros H. apply search_from_group in H.
  unfold PRICE_PATTERN_group in H. cbn [lang lang_atom] in H.
  destruct H as (a & r1 & -> & (_ & Ha) & b & r2 & -> & Hb & d & r3 & -> & Hd & ->).
  assert (R : forall x y, remove_commas (x ++ y) = remove_commas x ++ remove_commas y).
  { induction x as [|c x IH]; intros y; simpl; [reflexivity|].
    destruct (Ascii.eqb c ","); simpl; now rewrite IH. }
  assert (D : forall x, all_chars isdecimal x = true -> remove_commas x = x).
  { induction x as [|c x IH]; simpl; [reflexivity|]. intros K.
    apply andb_prop in K. destruct K as [Kc Kx].
    destruct (Ascii.eqb_spec c ","); [subst c; discriminate|now rewrite IH]. }
  assert (C : forall x,
             all_chars (fun c => in_range 48 57 c || Ascii.eqb c ",") x = true ->
             all_chars isdecimal (remove_commas x) = true).
  { induction x as [|c x IH]; simpl; [reflexivity|]. intros K.
    apply andb_prop in K. destruct K as [Kc Kx].
    destruct (Ascii.eqb c ",") eqn:E; [now apply IH|].
    rewrite orb_false_r in Kc. simpl. unfold isdecimal at 1. rewrite Kc. now apply IH. }
  rewrite append_empty_r, !R, (D d Hd).
  destruct Hb as [->|(c & -> & Hc)]; simpl.
  - exists (remove_commas a ++ d), EmptyString. rewrite append_empty_r.
    split; [reflexivity|]. split; [|now left].
    rewrite all_chars_app, (C a Ha), Hd. reflexivity.
  - apply Ascii.eqb_eq in Hc. subst c. simpl.
    exists (remove_commas a), (String "." d).
    split; [reflexivity|]. split; [now apply C|]. right. eauto.
Qed.

(** ** Line classification *)

Lemma classify_Heading line :
  classify line = Heading -> is_heading line = true.
Proof.
  unfold classify.
  destruct (negb (truthy line) || (line =? "0")); [discriminate|].
  now destruct (is_heading line).
Qed.

Lemma is_heading_not_component_id text :
  is_heading text = true -> is_component_id (strip text) = false.
Proof.
  unfold is_heading.
  destruct (negb (truthy text)); [discriminate|].
  now destruct (is_component_id (strip text)).
Qed.

Lemma component_id_not_heading text :
  is_component_id (strip text) = true -> is_heading text = false.
Proof.
  unfold is_heading. intros ->. now destruct (negb (truthy text)).
Qed.

Lemma id_shape_not_zero : ~ id_shape "0".
Proof. intros (c & w & d & t & E & Hc & _). now injection E as <- _. Qed.

(** C4.  A line the loop treats as a heading never has the
    component-identifier shape, and a line of that shape is always handed to
    the row parser, never to the heading branch and never dropped.  [line]
    is the stripped line the loop classifies; the shape is both what
    [is_component_id] computes and [id_shape], the shape in words. *)
Theorem heading_never_component_id (raw : string) :
  let line := strip raw in
  (classify line = Heading -> is_component_id line = false /\ ~ id_shape line) /\
  (id_shape line -> classify line = DataCandidate).
Proof.
  intros line.
  assert (S : strip line = line) by apply strip_idempotent.
  split.
  - intros H. apply classify_Heading, is_heading_not_component_id in H.
    rewrite S in H. split; [exact H|].
    intros I. rewrite <- S in I. apply is_component_id_spec in I. congruence.
  - intros I. unfold classify.
    rewrite (id_shape_nonempty _ I). simpl negb. cbv iota.
    destruct (String.eqb_spec line "0") as [E|_].
    + rewrite E in I. now apply id_shape_not_zero in I.
    + simpl orb. cbv iota. rewrite component_id_not_heading; [reflexivity|].
      rewrite S. apply is_component_id_spec. now rewrite S.
Qed.

Lemma heading_never_component_id_witness :
  (is_component_id "Combi Natural Gas0" = false /\ ~ id_shape "Combi Natural Gas0") /\
  classify "AB123" = DataCandidate.
Proof.
  split.
  - apply (proj1 (heading_never_component_id "Combi Natural Gas0")). reflexivity.
  - apply (proj2 (heading_never_component_id "AB123")).
    exists "A"%char, "B", "123", "". simpl.
    repeat split; try reflexivity; [discriminate|now left].
Defined.

(** ** Row parsing *)

Lemma digits_value_nonneg s :
  forall acc, all_chars isdecimal s = true -> (0 <= acc)%Z -> (0 <= digits_value acc s)%Z.
Proof.
  induction s as [|c s IH]; intros acc Hs Hacc;
    cbn [all_chars digits_value] in *; [exact Hacc|].
  apply andb_prop in Hs. destruct Hs as [Hc Hs].
  apply IH; [exact Hs|].
  unfold isdecimal, in_range in Hc. apply andb_prop in Hc. destruct Hc as [Hc _].
  apply N.leb_le in Hc. generalize dependent (code c). intros n Hn. lia.
Qed.

Lemma int_of_string_nonneg s z : int_of_string s = Returned z -> (0 <= z)%Z.
Proof.
  unfold int_of_string.
  destruct (truthy s); simpl; [|discriminate].
  destruct (all_chars isdecimal s) eqn:E; [|discriminate].
  intros [= <-]. apply digits_value_nonneg; [exact E|lia].
Qed.

Lemma extract_lead_time_nonneg text z :
  extract_lead_time text = Returned z -> (0 <= z)%Z.
Proof.
  unfold extract_lead_time.
  destruct (split (strip text)) as [|w ws]; [intros [= <-]; lia|].
  destruct (isdigit _); [apply int_of_string_nonneg|intros [= <-]; lia].
Qed.

Lemma float_not_zero_positive q : float_is_zero q = false -> (0 < q)%Q.
Proof.
  unfold float_is_zero. intros H.
  apply Qlt_trans with (y := 1 # 2 ^ 1075); [reflexivity|].
  apply Qnot_le_lt. intros L. apply Qle_bool_iff in L. congruence.
Qed.

(** C7.  Whatever the line and the section state, a record that
    [parse_component_row] returns has a price above zero and a lead time
    that is a nonnegative integer. *)
Theorem parsed_row_price_and_lead_time (text cs css : string) (r : row) :
  parse_component_row text cs css = Returned (Some r) ->
  (0 < selling_price_gbp r)%Q /\ (0 <= lead_time_days r)%Z.
Proof.
  unfold parse_component_row.
  destruct (_ <? 3)%nat; [discriminate|].
  destruct (negb _); [discriminate|].
  destruct (float_is_zero _) eqn:P; [discriminate|].
  destruct (extract_lead_time _) as [z|] eqn:L; [|discriminate].
  destruct (PRICE_PATTERN_search _); [|discriminate].
  intros [= <-]. simpl. split.
  - now apply float_not_zero_positive.
  - now apply extract_lead_time_nonneg in L.
Qed.

Definition sample_row_line : string :=
  "ABC123 Some description " ++ String pound "1,234.56 14".

Lemma parsed_row_price_and_lead_time_witness :
  exists r, parse_component_row sample_row_line "BOILERS" "System" = Returned (Some r) /\
            (0 < selling_price_gbp r)%Q /\ (0 <= lead_time_days r)%Z.
Proof.
  eexists. split; [reflexivity|].
  apply (parsed_row_price_and_lead_time sample_row_line "BOILERS" "System").
  reflexivity.
Defined.

(** C8.  On the line ["ABC123 Some description £1,234.56 14"] and any
    section state the row parser succeeds: the identifier is "ABC123", the
    price 1234.56 (the comma of the thousands is gone), the lead time 14
    and the description "Some description", the stripped text between the
    identifier and the pound sign; section and subsection are the ones
    passed in. *)
Theorem sample_row_parsed (cs css : string) :
  exists r,
    parse_component_row sample_row_line cs css = Returned (Some r) /\
    section r = cs /\ subsection r = css /\
    component_id r = "ABC123" /\
    description r = "Some description" /\
    (selling_price_gbp r == 1234.56)%Q /\
    lead_time_days r = 14%Z /\
    description r =
      strip (slice (String.length "ABC123") 24 (strip sample_row_line)) /\
    PRICE_PATTERN_search (strip sample_row_line) =
      Some {| m_start := 24; m_group1 := "1,234.56" |}.
Proof.
  eexists. split; [vm_compute; reflexivity|].
  simpl. repeat split; reflexivity.
Qed.

(** C10.  A line with fewer than three whitespace-separated tokens is
    rejected by the row parser, whatever the section state. *)
Theorem too_few_tokens_rejected (text cs css : string) :
  (List.length (split text) < 3)%nat ->
  parse_component_row text cs css = Returned None.
Proof.
  intros H. unfold parse_component_row.
  rewrite split_strip. apply Nat.ltb_lt in H. now rewrite H.
Qed.

Lemma too_few_tokens_rejected_witness :
  parse_component_row "  BOILERS0  " "" "" = Returned None /\
  parse_component_row ("AB123 " ++ String pound "850.00") "BOILERS" "" = Returned None.
Proof.
  split.
  - apply (too_few_tokens_rejected "  BOILERS0  "). simpl. lia.
  - apply (too_few_tokens_rejected ("AB123 " ++ String pound "850.00")). simpl. lia.
Defined.

(** ** Routing *)

Definition unclassified : string := "unclassified.csv".

Lemma first_pass_in mapping section subsection filename :
  first_pass mapping section subsection = Some filename ->
  In filename (map fst mapping).
Proof.
  induction mapping as [|[f cfg] rest IH]; simpl; [discriminate|].
  destruct (section_match cfg section);
    [destruct (negb _); [|destruct (subsection_match cfg subsection)]|];
    try (intros [= ->]; now left); intros H; right; now apply IH.
Qed.

Lemma second_pass_in mapping subsection filename :
  second_pass mapping subsection = Some filename ->
  In filename (map fst mapping).
Proof.
  induction mapping as [|[f cfg] rest IH]; simpl; [discriminate|].
  destruct (_ && _); [intros [= ->]; now left|intros H; right; now apply IH].
Qed.

Lemma third_pass_in mapping subsection filename :
  third_pass mapping subsection = Some filename ->
  In filename (map fst mapping).
Proof.
  induction mapping as [|[f cfg] rest IH]; simpl; [discriminate|].
  destruct (_ && _); [intros [= ->]; now left|intros H; right; now apply IH].
Qed.

(** A pass that skips every rule of [pre] stops at the next rule that
    matches. *)
Lemma second_pass_skip pre f cfg post subsection :
  (forall f' cfg', In (f', cfg') pre -> subsection_match cfg' subsection = false) ->
  second_pass (pre ++ (f, cfg) :: post) subsection =
  if nonempty (subsections cfg) && subsection_match cfg subsection
  then Some f else second_pass post subsection.
Proof.
  induction pre as [|[f' cfg'] pre IH]; intros H; simpl; [reflexivity|].
  rewrite (H f' cfg') by now left. rewrite andb_false_r.
  apply IH. intros f0 c0 I. apply (H f0 c0). now right.
Qed.

Lemma third_pass_skip pre f cfg post subsection :
  (forall f' cfg', In (f', cfg') pre -> keyword_match cfg' subsection = false) ->
  third_pass (pre ++ (f, cfg) :: post) subsection =
  if nonempty (keywords cfg) && keyword_match cfg subsection
  then Some f else third_pass post subsection.
Proof.
  induction pre as [|[f' cfg'] pre IH]; intros H; simpl; [reflexivity|].
  rewrite (H f' cfg') by now left. rewrite andb_false_r.
  apply IH. intros f0 c0 I. apply (H f0 c0). now right.
Qed.

Lemma second_pass_none mapping subsection :
  (forall f cfg, In (f, cfg) mapping -> subsection_match cfg subsection = false) ->
  second_pass mapping subsection = None.
Proof.
  induction mapping as [|[f cfg] rest IH]; intros H; simpl; [reflexivity|].
  rewrite (H f cfg) by now left. rewrite andb_false_r.
  apply IH. intros f0 c0 I. apply (H f0 c0). now right.
Qed.

Lemma third_pass_found mapping f cfg subsection :
  In (f, cfg) mapping ->
  nonempty (keywords cfg) = true -> keyword_match cfg subsection = true ->
  third_pass mapping subsection <> None.
Proof.
  induction mapping as [|[f' cfg'] rest IH]; simpl; [contradiction|].
  intros [[= -> ->]|I] Hn Hk.
  - now rewrite Hn, Hk.
  - destruct (_ && _); [discriminate|now apply IH].
Qed.

Lemma unclassified_not_in_table : ~ In unclassified (map fst FILE_MAPPING).
Proof.
  simpl. unfold unclassified. intros I.
  repeat (destruct I as [I|I]; [discriminate I|]). exact I.
Qed.

(** The router answers with a file of the table unless all three passes
    fall through. *)
Lemma determine_output_file_classified section subsection :
  third_pass FILE_MAPPING subsection <> None ->
  determine_output_file section subsection <> unclassified.
Proof.
  intros H. unfold determine_output_file.
  pose proof unclassified_not_in_table as N.
  destruct (first_pass _ _ _) as [f|] eqn:E1.
  { apply first_pass_in in E1. congruence. }
  destruct (second_pass _ _) as [f|] eqn:E2.
  { apply second_pass_in in E2. congruence. }
  destruct (third_pass _ _) as [f|] eqn:E3; [|congruence].
  apply third_pass_in in E3. congruence.
Qed.

(** C6.  Section "Boilers" with subsection "Combi Natural Gas" goes to
    boilers_combi_ng (file boilers_combi_ng.csv) and not to
    boilers_combi_lpg: the first pass decides it, at the first rule in table
    order whose section and subsection labels both match. *)
Theorem boilers_combi_natural_gas_routed :
  determine_output_file "Boilers" "Combi Natural Gas" = "boilers_combi_ng.csv" /\
  determine_output_file "Boilers" "Combi Natural Gas" <> "boilers_combi_lpg.csv" /\
  first_pass FILE_MAPPING "Boilers" "Combi Natural Gas" = Some "boilers_combi_ng.csv" /\
  first_pass (firstn 4 FILE_MAPPING) "Boilers" "Combi Natural Gas" = None.
Proof.
  assert (E : determine_output_file "Boilers" "Combi Natural Gas" = "boilers_combi_ng.csv")
    by (vm_compute; reflexivity).
  rewrite E. repeat split; try (vm_compute; reflexivity). discriminate.
Qed.

Lemma contains_empty s : contains "" s = true.
Proof. now destruct s. Qed.

Lemma overlaps_empty label : overlaps label "" = true.
Proof.
  unfold overlaps. change (lower "") with "".
  rewrite contains_empty. apply orb_true_r.
Qed.

Lemma subsection_match_empty cfg :
  nonempty (subsections cfg) = true -> subsection_match cfg "" = true.
Proof.
  unfold subsection_match. destruct (subsections cfg) as [|ss l]; [discriminate|].
  intros _. simpl. now rewrite overlaps_empty.
Qed.

(** With an empty subsection the first pass stops at the first rule whose
    section labels match. *)
Lemma first_pass_empty_subsection mapping section :
  first_pass mapping section "" =
  option_map fst (find (fun rule => section_match (snd rule) section) mapping).
Proof.
  induction mapping as [|[f cfg] rest IH]; simpl; [reflexivity|].
  destruct (section_match cfg section); [|exact IH]. simpl.
  destruct (nonempty (subsections cfg)) eqn:E; simpl; [|reflexivity].
  now rewrite subsection_match_empty.
Qed.

(** C3.  With the empty subsection the router never answers
    "unclassified.csv", whatever the section: the empty string is contained
    in every label, so the first rule whose section labels match wins in
    the first pass, and when no section label matches the second pass stops
    at core_packs, the first rule with subsection labels. *)
Theorem empty_subsection_never_unclassified (section : string) :
  determine_output_file section "" <> unclassified /\
  determine_output_file section "" =
    match find (fun rule => section_match (snd rule) section) FILE_MAPPING with
    | Some (filename, _) => filename
    | None => "core_packs.csv"
    end /\
  (forall label, overlaps label "" = true) /\
  second_pass FILE_MAPPING "" = Some "core_packs.csv".
Proof.
  assert (E : determine_output_file section "" =
              match find (fun rule => section_match (snd rule) section) FILE_MAPPING with
              | Some (filename, _) => filename
              | None => "core_packs.csv"
              end).
  { unfold determine_output_file. rewrite first_pass_empty_subsection.
    destruct (find _ FILE_MAPPING) as [[f cfg]|]; reflexivity. }
  split; [|split; [exact E|split; [exact overlaps_empty|reflexivity]]].
  rewrite E. destruct (find _ FILE_MAPPING) as [[f cfg]|] eqn:F.
  - apply find_some in F. destruct F as [I _].
    intros U. apply unclassified_not_in_table. rewrite <- U.
    change f with (fst (f, cfg)). now apply in_map.
  - discriminate.
Qed.

(** The rules before and after smart_hive in table order, and its entry. *)
Definition rules_before_smart_hive : list (string * config) := firstn 3 FILE_MAPPING.
Definition rules_after_smart_hive : list (string * config) := skipn 4 FILE_MAPPING.
Definition smart_hive_config : config :=
  snd (nth 3 FILE_MAPPING ("", {| sections := []; subsections := []; keywords := [] |})).

Lemma FILE_MAPPING_around_smart_hive :
  FILE_MAPPING =
  (rules_before_smart_hive ++ ("smart_hive.csv", smart_hive_config) :: rules_after_smart_hive)%list.
Proof. reflexivity. Qed.

Lemma other_rules_not_smart_hive f cfg :
  In (f, cfg) (rules_before_smart_hive ++ rules_after_smart_hive) ->
  In (f, cfg) FILE_MAPPING /\ f <> "smart_hive.csv".
Proof.
  intros I. split.
  - rewrite FILE_MAPPING_around_smart_hive. apply in_app_or in I.
    apply in_or_app. destruct I as [I|I]; [now left|right; now right].
  - simpl in I.
    repeat (destruct I as [I|I]; [injection I as <- _; discriminate|]).
    contradiction.
Qed.

Lemma hive_keyword_match subsection :
  contains "hive" (lower subsection) = true ->
  keyword_match smart_hive_config subsection = true.
Proof.
  intros H. unfold keyword_match, smart_hive_config. simpl keywords.
  cbn [existsb]. change (lower "hive") with "hive". now rewrite H.
Qed.

(** C2 does not hold as stated: a subsection that contains "hive" is sent
    elsewhere when an earlier match exists, in the first pass (section
    "Price Alignment", a rule without subsection labels) or in the second
    (the label "Full System" of core_packs). *)
Lemma hive_subsection_sent_elsewhere :
  contains "hive" (lower "Hive") = true /\
  determine_output_file "Price Alignment" "Hive" = "price_alignment.csv" /\
  contains "hive" (lower "Hive Full System") = true /\
  first_pass FILE_MAPPING "Zzz" "Hive Full System" = None /\
  determine_output_file "Zzz" "Hive Full System" = "core_packs.csv" /\
  ~ (forall section subsection,
        contains "hive" (lower subsection) = true ->
        determine_output_file section subsection = "smart_hive.csv").
Proof.
  assert (E : determine_output_file "Price Alignment" "Hive" = "price_alignment.csv")
    by (vm_compute; reflexivity).
  split; [reflexivity|]. split; [exact E|].
  split; [reflexivity|]. split; [vm_compute; reflexivity|].
  split; [vm_compute; reflexivity|].
  intros H. specialize (H "Price Alignment" "Hive" eq_refl).
  rewrite E in H. discriminate.
Qed.

(** C2, amended.  A subsection that contains "hive" in any letter case is
    never left unclassified, whatever the section.  It goes to smart_hive
    (file smart_hive.csv) whenever the first pass picks no other rule, no
    other rule has a subsection label that contains the subsection or is
    contained in it, and the subsection holds no keyword of the rules
    listed before smart_hive. *)
Theorem hive_subsection_routed (section subsection : string) :
  contains "hive" (lower subsection) = true ->
  determine_output_file section subsection <> unclassified /\
  ((forall f, first_pass FILE_MAPPING section subsection = Some f -> f = "smart_hive.csv") ->
   (forall f cfg, In (f, cfg) FILE_MAPPING -> f <> "smart_hive.csv" ->
                  subsection_match cfg subsection = false) ->
   (forall f cfg, In (f, cfg) rules_before_smart_hive ->
                  keyword_match cfg subsection = false) ->
   determine_output_file section subsection = "smart_hive.csv").
Proof.
  intros Hive. pose proof (hive_keyword_match _ Hive) as K. split.
  - apply determine_output_file_classified.
    apply third_pass_found with (f := "smart_hive.csv") (cfg := smart_hive_config).
    + rewrite FILE_MAPPING_around_smart_hive. apply in_or_app. right. now left.
    + reflexivity.
    + exact K.
  - intros H1 H2 H3. unfold determine_output_file.
    destruct (first_pass _ _ _) as [f|]; [now apply H1|].
    assert (O : forall f cfg,
               In (f, cfg) (rules_before_smart_hive ++ rules_after_smart_hive) ->
               subsection_match cfg subsection = false).
    { intros f cfg I. apply other_rules_not_smart_hive in I.
      destruct I as [I N]. now apply (H2 f cfg). }
    rewrite FILE_MAPPING_around_smart_hive.
    rewrite second_pass_skip
      by (intros f cfg I; apply (O f cfg), in_or_app; now left).
    destruct (nonempty _ && subsection_match smart_hive_config subsection);
      [reflexivity|].
    rewrite second_pass_none
      by (intros f cfg I; apply (O f cfg), in_or_app; now right).
    rewrite third_pass_skip by exact H3.
    rewrite K. reflexivity.
Qed.

Lemma hive_subsection_routed_witness :
  determine_output_file "Zzz" "Hive TRV" <> unclassified /\
  determine_output_file "Zzz" "Hive TRV" = "smart_hive.csv" /\
  determine_output_file "Zzz" "xhivex" = "smart_hive.csv".
Proof.
  assert (A : forall sub,
             forallb (fun rule =>
                        String.eqb (fst rule) "smart_hive.csv" ||
                        negb (subsection_match (snd rule) sub)) FILE_MAPPING = true ->
             forall f cfg, In (f, cfg) FILE_MAPPING -> f <> "smart_hive.csv" ->
                           subsection_match cfg sub = false).
  { intros sub F f cfg I N. rewrite forallb_forall in F. specialize (F _ I).
    simpl in F. destruct (String.eqb_spec f "smart_hive.csv"); [contradiction|].
    simpl in F. now destruct (subsection_match cfg sub). }
  assert (B : forall sub,
             forallb (fun rule => negb (keyword_match (snd rule) sub))
                     rules_before_smart_hive = true ->
             forall f cfg, In (f, cfg) rules_before_smart_hive ->
                           keyword_match cfg sub = false).
  { intros sub F f cfg I. rewrite forallb_forall in F. specialize (F _ I).
    simpl in F. now destruct (keyword_match cfg sub). }
  split; [|split].
  - apply (proj1 (hive_subsection_routed "Zzz" "Hive TRV" eq_refl)).
  - apply (proj2 (hive_subsection_routed "Zzz" "Hive TRV" eq_refl)).
    + intros f E. vm_compute in E. discriminate.
    + apply A. vm_compute. reflexivity.
    + apply B. vm_compute. reflexivity.
  - apply (proj2 (hive_subsection_routed "Zzz" "xhivex" eq_refl)).
    + intros f E. vm_compute in E. discriminate.
    + apply A. vm_compute. reflexivity.
    + apply B. vm_compute. reflexivity.
Defined.

(** ** Section tracking and the whole loop *)

(** The loop body follows [classify] on the stripped line. *)
Lemma process_line_by_class st raw :
  process_line st raw =
  match classify (strip raw) with
  | Skip => Returned st
  | Heading => Returned (heading_update st (strip raw))
  | DataCandidate =>
      match parse_component_row (strip raw) (current_section st) (current_subsection st) with
      | Raised e => Raised e
      | Returned None => Returned st
      | Returned (Some r) =>
          Returned {| rows_by_file :=
                        append_row (determine_output_file (section r) (subsection r)) r
                                   (rows_by_file st);
                      current_section := current_section st;
                      current_subsection := current_subsection st |}
      end
  end.
Proof.
  unfold process_line, classify.
  destruct (negb (truthy (strip raw)) || (strip raw =? "0")); [reflexivity|].
  destruct (is_heading (strip raw)); reflexivity.
Qed.

(** C9.  A heading whose cleaned label, in upper case, holds no major
    section marker, met while the current section is non-empty, sets the
    current subsection to the cleaned label and nothing else; a line that is
    not a heading leaves section and subsection as they were (a skipped line
    always, a data line unless the row parser raised, which ends the run). *)
Theorem section_state_frame (st : state) (raw : string) :
  let line := strip raw in
  (classify line = Heading ->
   is_major (clean_heading line) = false ->
   truthy (current_section st) = true ->
   process_line st raw =
   Returned {| rows_by_file := rows_by_file st;
               current_section := current_section st;
               current_subsection := clean_heading line |}) /\
  (classify line <> Heading ->
   match process_line st raw with
   | Returned st' =>
       current_section st' = current_section st /\
       current_subsection st' = current_subsection st
   | Raised _ => classify line = DataCandidate
   end).
Proof.
  intros line. rewrite process_line_by_class. fold line. split.
  - intros -> M T. unfold heading_update. now rewrite M, T.
  - intros N. destruct (classify line); [contradiction| |now split].
    destruct (parse_component_row _ _ _) as [[r|]|e]; [now split|now split|reflexivity].
Qed.

Definition in_boilers : state :=
  {| rows_by_file := []; current_section := "BOILERS"; current_subsection := "" |}.

Lemma section_state_frame_witness :
  process_line in_boilers "Combi Natural Gas0" =
    Returned {| rows_by_file := []; current_section := "BOILERS";
                current_subsection := "Combi Natural Gas" |} /\
  match process_line in_boilers "AB123 no price 10" with
  | Returned st' => current_section st' = "BOILERS" /\ current_subsection st' = ""
  | Raised _ => classify "AB123 no price 10" = DataCandidate
  end.
Proof.
  split.
  - apply (proj1 (section_state_frame in_boilers "Combi Natural Gas0")); reflexivity.
  - apply (proj2 (section_state_frame in_boilers "AB123 no price 10")). discriminate.
Defined.

(** C5.  What the code does with "BOILERS0" then "Combi Natural Gas0" from
    the empty state: "BOILERS0" has the component-identifier shape, so
    [is_heading] rejects it and it never reaches the heading branch; the
    second line then opens the section.  The heading branch alone, had both
    lines reached it, gives the section "BOILERS" and the subsection
    "Combi Natural Gas". *)
Theorem boilers0_is_not_taken_as_heading :
  process_lines initial_state ["BOILERS0"; "Combi Natural Gas0"] =
    Returned {| rows_by_file := [];
                current_section := "Combi Natural Gas";
                current_subsection := "" |} /\
  id_shape "BOILERS0" /\
  is_heading "BOILERS0" = false /\
  classify "BOILERS0" = DataCandidate /\
  is_heading "BOILERS" = true /\
  heading_update (heading_update initial_state "BOILERS0") "Combi Natural Gas0" =
    {| rows_by_file := [];
       current_section := "BOILERS";
       current_subsection := "Combi Natural Gas" |}.
Proof.
  split; [vm_compute; reflexivity|].
  split; [apply (is_component_id_spec "BOILERS0"); reflexivity|].
  repeat split; vm_compute; reflexivity.
Qed.

Definition example_row_line : string :=
  "AB123 Worcester Combi " ++ String pound "850.00 10".

Definition example_row (section subsection : string) : row :=
  {| section := section;
     subsection := subsection;
     component_id := "AB123";
     description := "Worcester Combi";
     selling_price_gbp := 850.00;
     lead_time_days := 10 |}.

(** C1.  What the code does with the three example lines, as a line
    sequence and as the text of one page: one record, with identifier
    "AB123", price 850.00 and lead time 10, but filed under core_packs.csv
    with "Combi Natural Gas" as its section, because "BOILERS0" is not taken
    as a heading.  With the heading written "BOILERS" the same lines give
    the record in boilers_combi_ng.csv. *)
Theorem end_to_end_example_filed_under_core_packs :
  process_lines initial_state ["BOILERS0"; "Combi Natural Gas0"; example_row_line] =
    Returned {| rows_by_file := [("core_packs.csv", [example_row "Combi Natural Gas" ""])];
                current_section := "Combi Natural Gas";
                current_subsection := "" |} /\
  parse_pdf [Some ("BOILERS0" ++ newline ++ "Combi Natural Gas0" ++ newline ++ example_row_line)] =
    Returned [("core_packs.csv", [example_row "Combi Natural Gas" ""])] /\
  parse_pdf [Some ("BOILERS" ++ newline ++ "Combi Natural Gas0" ++ newline ++ example_row_line)] =
    Returned [("boilers_combi_ng.csv", [example_row "BOILERS" "Combi Natural Gas"])].
Proof. repeat split; vm_compute; reflexivity. Qed.

(** * Further properties *)

(** ** Characters and tokens *)

Ltac each_char c :=
  destruct c as [[] [] [] [] [] [] [] []]; try reflexivity; try discriminate.

Lemma upper_AZ_not_space c : is_upper_AZ c = true -> isspace c = false.
Proof. each_char c. Qed.

Lemma decimal_not_space c : isdecimal c = true -> isspace c = false.
Proof. each_char c. Qed.

Lemma all_chars_weaken (p q : ascii -> bool) s :
  (forall c, p c = true -> q c = true) ->
  all_chars p s = true -> all_chars q s = true.
Proof.
  intros W. induction s as [|c s IH]; simpl; [reflexivity|].
  intros H. apply andb_prop in H. destruct H as [Hc Hs].
  now rewrite (W c Hc), IH.
Qed.

Definition not_space (c : ascii) : bool := negb (isspace c).

Lemma rstrip_by_none p s :
  all_chars (fun c => negb (p c)) s = true -> rstrip_by p s = s.
Proof.
  induction s as [|c s IH]; simpl; [reflexivity|].
  intros H. apply andb_prop in H. destruct H as [Hc Hs].
  rewrite (IH Hs). destruct s; [|reflexivity].
  now destruct (p c).
Qed.

Lemma strip_by_none p s :
  all_chars (fun c => negb (p c)) s = true -> strip_by p s = s.
Proof.
  intros H. unfold strip_by. rewrite lstrip_by_clean.
  - now apply rstrip_by_none.
  - destruct s as [|c s]; [reflexivity|]. simpl in *.
    now apply andb_prop in H.
Qed.

(** A text without whitespace is its own stripped form. *)
Lemma strip_no_space s : all_chars not_space s = true -> strip s = s.
Proof. apply strip_by_none. Qed.

(** Every character of a token is a character of the text that is not
    whitespace. *)
Lemma split_from_chars (q : ascii -> bool) s :
  forall word,
    all_chars (fun c => isspace c || q c) s = true ->
    match word with Some w => all_chars q w = true | None => True end ->
    Forall (fun t => all_chars q t = true) (split_from word s).
Proof.
  induction s as [|c s IH]; intros word Hs Hw.
  - destruct word; simpl; auto.
  - rewrite split_from_cons. cbn [all_chars] in Hs.
    apply andb_prop in Hs. destruct Hs as [Hc Hs].
    destruct (isspace c) eqn:E.
    + destruct word; [constructor; [exact Hw|]|]; now apply IH.
    + simpl in Hc. destruct word as [w|]; apply IH; auto.
      * rewrite all_chars_app, Hw. simpl. now rewrite Hc.
      * simpl. now rewrite Hc.
Qed.

Lemma split_from_nonempty s :
  forall word,
    match word with Some w => truthy w = true | None => True end ->
    Forall (fun t => truthy t = true) (split_from word s).
Proof.
  induction s as [|c s IH]; intros word Hw.
  - destruct word; simpl; auto.
  - rewrite split_from_cons. destruct (isspace c).
    + destruct word; [constructor; [exact Hw|]|]; now apply IH.
    + destruct word as [w|]; apply IH; [now destruct w|reflexivity].
Qed.

(** Tokens are non-empty and hold no whitespace. *)
Lemma split_tokens s :
  Forall (fun t => truthy t = true /\ all_chars not_space t = true) (split s).
Proof.
  pose proof (split_from_nonempty s None I) as N.
  assert (C : Forall (fun t => all_chars not_space t = true) (split s)).
  { apply split_from_chars; [|exact I].
    clear N. induction s as [|c s IH]; simpl; [reflexivity|].
    rewrite IH. unfold not_space. now destruct (isspace c). }
  unfold split in *. rewrite Forall_forall in *. auto.
Qed.

(** A non-empty text without whitespace is one token. *)
Lemma split_from_no_space s :
  forall w, all_chars not_space s = true -> split_from (Some w) s = [w ++ s].
Proof.
  induction s as [|c s IH]; intros w H; simpl.
  - now rewrite append_empty_r.
  - simpl in H. apply andb_prop in H. destruct H as [Hc Hs].
    unfold not_space in Hc. apply negb_true_iff in Hc. rewrite Hc.
    rewrite (IH _ Hs), append_assoc. reflexivity.
Qed.

Lemma split_no_space s :
  truthy s = true -> all_chars not_space s = true -> split s = [s].
Proof.
  destruct s as [|c s]; [discriminate|]. intros _ H. unfold split. simpl.
  simpl in H. apply andb_prop in H. destruct H as [Hc Hs].
  unfold not_space in Hc. apply negb_true_iff in Hc. rewrite Hc.
  now rewrite split_from_no_space.
Qed.


(** ** More on classification *)

Lemma is_component_id_strip text :
  is_component_id (strip text) = is_component_id text.
Proof.
  unfold is_component_id. rewrite strip_idempotent.
  destruct text as [|c text]; [reflexivity|].
  destruct (strip (String c text)); reflexivity.
Qed.

(** X1.  [is_component_id] accepts exactly the texts that, once stripped,
    have the component-identifier shape; whitespace around the text does
    not matter. *)
Theorem is_component_id_decides_shape (text : string) :
  (is_component_id text = true <-> id_shape (strip text)) /\
  is_component_id (strip text) = is_component_id text.
Proof. split; [apply is_component_id_spec|apply is_component_id_strip]. Qed.

Lemma is_component_id_decides_shape_witness :
  is_component_id "  AB123X " = true /\ id_shape (strip "X9").
Proof.
  split.
  - apply (proj2 (proj1 (is_component_id_decides_shape "  AB123X "))).
    exists "A"%char, "B", "123", "X". simpl.
    repeat split; try reflexivity; [discriminate|right; eauto].
  - apply (proj1 (proj1 (is_component_id_decides_shape "X9"))). reflexivity.
Defined.

Lemma caps_then_digits_shape w d :
  truthy w = true -> all_chars is_upper_AZ w = true ->
  truthy d = true -> all_chars isdecimal d = true ->
  id_shape (w ++ d) /\ all_chars not_space (w ++ d) = true.
Proof.
  intros Tw Hw Td Hd. split.
  - destruct w as [|c w]; [discriminate|]. cbn [all_chars] in Hw.
    apply andb_prop in Hw. destruct Hw as [Hc Hw].
    exists c, w, d, EmptyString. rewrite append_empty_r.
    split; [reflexivity|]. split; [exact Hc|]. split.
    + revert Hw. apply all_chars_weaken. intros x ->. reflexivity.
    + split; [now destruct d|]. auto.
  - rewrite all_chars_app. apply andb_true_intro. split.
    + revert Hw. apply all_chars_weaken. intros c H.
      unfold not_space. now rewrite upper_AZ_not_space.
    + revert Hd. apply all_chars_weaken. intros c H.
      unfold not_space. now rewrite decimal_not_space.
Qed.

(** X2.  A line made of capital letters followed by decimal digits, such as
    an all-capitals one-word heading with the layout's trailing "0", is
    never taken as a heading: it has the component-identifier shape, so the
    loop hands it to the row parser, which rejects it for having one token,
    and the state is left as it was. *)
Theorem caps_word_with_digits_is_dropped (w d : string) (st : state) :
  truthy w = true -> all_chars is_upper_AZ w = true ->
  truthy d = true -> all_chars isdecimal d = true ->
  is_heading (w ++ d) = false /\
  classify (w ++ d) = DataCandidate /\
  process_line st (w ++ d) = Returned st.
Proof.
  intros Tw Hw Td Hd.
  destruct (caps_then_digits_shape w d Tw Hw Td Hd) as [Sh Ns].
  pose proof (strip_no_space _ Ns) as St.
  assert (T : truthy (w ++ d) = true) by now apply id_shape_nonempty.
  assert (H : is_heading (w ++ d) = false).
  { apply component_id_not_heading. rewrite is_component_id_strip.
    apply is_component_id_spec. now rewrite St. }
  assert (C : classify (w ++ d) = DataCandidate).
  { unfold classify. rewrite T, H. simpl.
    destruct (String.eqb_spec (w ++ d) "0") as [E|_]; [|reflexivity].
    rewrite E in Sh. now apply id_shape_not_zero in Sh. }
  split; [exact H|]. split; [exact C|].
  rewrite process_line_by_class, St, C.
  unfold parse_component_row. rewrite split_strip, St.
  now rewrite (split_no_space _ T Ns).
Qed.

Lemma caps_word_with_digits_is_dropped_witness :
  is_heading "EXTRAS0" = false /\
  classify "EXTRAS0" = DataCandidate /\
  process_line in_boilers "EXTRAS0" = Returned in_boilers.
Proof.
  apply (caps_word_with_digits_is_dropped "EXTRAS" "0" in_boilers); reflexivity.
Defined.

(** ** More on row parsing *)

Lemma has_char_lstrip c p s :
  has_char c (lstrip_by p s) = true -> has_char c s = true.
Proof.
  induction s as [|x s IH]; simpl; [discriminate|].
  destruct (p x); [|exact (fun H => H)].
  intros H. rewrite (IH H). apply orb_true_r.
Qed.

Lemma has_char_rstrip c p s :
  has_char c (rstrip_by p s) = true -> has_char c s = true.
Proof.
  induction s as [|x s IH]; simpl; [discriminate|].
  destruct (rstrip_by p s) as [|y r].
  - destruct (p x); simpl; [discriminate|].
    rewrite orb_false_r. intros ->. reflexivity.
  - cbn [has_char]. intros H. apply orb_prop in H. destruct H as [->|H].
    + reflexivity.
    + rewrite (IH H). apply orb_true_r.
Qed.

Lemma has_char_strip c s : has_char c (strip s) = true -> has_char c s = true.
Proof. intros H. now apply has_char_rstrip, has_char_lstrip in H. Qed.

(** A match of the price pattern starts on a pound sign. *)
Lemma price_match_here_pound s g :
  price_match_here s = Some g -> exists s', s = String pound s'.
Proof.
  unfold price_match_here, PRICE_PATTERN_head. cbn [match_atoms match_atom].
  destruct s as [|c s]; [discriminate|].
  destruct (Ascii.eqb_spec pound c) as [<-|_]; [eauto|discriminate].
Qed.

Lemma search_from_pound s :
  forall pos m, search_from pos s = Some m -> has_char pound s = true.
Proof.
  induction s as [|c s IH]; intros pos m; cbn [search_from].
  - destruct (price_match_here EmptyString) as [g|] eqn:E; [|discriminate].
    apply price_match_here_pound in E. destruct E as (s' & E). discriminate.
  - destruct (price_match_here (String c s)) as [g|] eqn:E.
    + intros _. apply price_match_here_pound in E. destruct E as (s' & [= -> _]).
      cbn [has_char]. now rewrite Ascii.eqb_refl.
    + intros H. cbn [has_char]. rewrite (IH _ _ H). apply orb_true_r.
Qed.

Lemma float_of_string_nonneg s q : float_of_string s = Some q -> (0 <= q)%Q.
Proof.
  unfold float_of_string. destruct (cut_at_dot s) as [i f].
  destruct (truthy _); simpl; [|discriminate].
  destruct (all_chars isdecimal _) eqn:E; [|discriminate].
  intros [= <-]. unfold Qle. simpl. rewrite Z.mul_1_r.
  apply digits_value_nonneg; [exact E|lia].
Qed.

(** What an accepted row went through, test by test. *)
Lemma parse_component_row_accepted text cs css r :
  parse_component_row text cs css = Returned (Some r) ->
  exists cid rest lead m,
    split text = cid :: rest /\ (2 <= List.length rest)%nat /\
    is_component_id cid = true /\
    float_is_zero (extract_price (strip text)) = false /\
    extract_lead_time (strip text) = Returned lead /\
    PRICE_PATTERN_search (strip text) = Some m /\
    r = {| section := cs; subsection := css; component_id := cid;
           description :=
             strip_by is_quote
               (strip (slice (String.length cid) (m_start m) (strip text)));
           selling_price_gbp := extract_price (strip text);
           lead_time_days := lead |}.
Proof.
  unfold parse_component_row. rewrite split_strip.
  destruct (split text) as [|cid rest] eqn:S; [discriminate|].
  destruct (_ <? 3)%nat eqn:L; [discriminate|]. cbn [hd].
  destruct (is_component_id cid) eqn:I; [|discriminate]. cbn [negb].
  destruct (float_is_zero _) eqn:P; [discriminate|].
  destruct (extract_lead_time _) as [lead|] eqn:T; [|discriminate].
  destruct (PRICE_PATTERN_search _) as [m|] eqn:M; [|discriminate].
  intros [= <-]. exists cid, rest, lead, m.
  apply Nat.ltb_ge in L. simpl in L. repeat split; auto. lia.
Qed.

(** X3.  A record that [parse_component_row] returns carries the section
    and subsection it was given, its identifier is the first token of the
    line and has the component-identifier shape, the line has at least
    three tokens and holds a pound sign. *)
Theorem parsed_row_fields (text cs css : string) (r : row) :
  parse_component_row text cs css = Returned (Some r) ->
  section r = cs /\ subsection r = css /\
  id_shape (component_id r) /\
  (exists rest, split text = component_id r :: rest /\ (2 <= List.length rest)%nat) /\
  has_char pound text = true.
Proof.
  intros H. apply parse_component_row_accepted in H.
  destruct H as (cid & rest & lead & m & S & L & I & _ & _ & M & ->). simpl.
  split; [reflexivity|]. split; [reflexivity|]. split; [|split; [eauto|]].
  - apply is_component_id_spec in I.
    pose proof (split_tokens text) as T. rewrite S in T.
    apply Forall_inv in T. destruct T as [_ T].
    now rewrite (strip_no_space _ T) in I.
  - apply search_from_pound in M. now apply has_char_strip.
Qed.

Lemma parsed_row_fields_witness :
  exists r, parse_component_row sample_row_line "BOILERS" "System" = Returned (Some r) /\
            section r = "BOILERS" /\ subsection r = "System" /\
            id_shape (component_id r) /\
            (exists rest, split sample_row_line = component_id r :: rest /\
                          (2 <= List.length rest)%nat) /\
            has_char pound sample_row_line = true.
Proof.
  eexists. split; [reflexivity|].
  apply (parsed_row_fields sample_row_line "BOILERS" "System"). reflexivity.
Defined.

(** X4.  The description of a returned record neither begins nor ends with
    a double or single quote. *)
Theorem description_not_quoted (text cs css : string) (r : row) :
  parse_component_row text cs css = Returned (Some r) ->
  starts_clean is_quote (description r) = true /\
  (forall m c, description r = m ++ String c EmptyString -> is_quote c = false).
Proof.
  intros H. apply parse_component_row_accepted in H.
  destruct H as (cid & rest & lead & m & _ & _ & _ & _ & _ & _ & ->). simpl.
  unfold strip_by. split.
  - apply rstrip_by_starts_clean, lstrip_by_starts_clean.
  - intros m0 c E. now apply rstrip_by_last in E.
Qed.

Definition quoted_row_line : string :=
  "AB1 " ++ String (ascii_of_N 34) ("Flue kit" ++ String (ascii_of_N 34) (" " ++ String pound "12.50 3")).

Lemma description_not_quoted_witness :
  exists r, parse_component_row quoted_row_line "" "" = Returned (Some r) /\
            description r = "Flue kit" /\
            starts_clean is_quote (description r) = true /\
            (forall m c, description r = m ++ String c EmptyString -> is_quote c = false).
Proof.
  eexists. split; [reflexivity|]. split; [reflexivity|].
  apply (description_not_quoted quoted_row_line "" ""). reflexivity.
Defined.

Lemma parse_component_row_strip text cs css :
  parse_component_row (strip text) cs css = parse_component_row text cs css.
Proof. unfold parse_component_row. now rewrite strip_idempotent. Qed.

(** X5.  A line the row parser accepts is never lost to the other branches
    of the loop: it is not dropped as empty or "0", it is not a heading
    (it holds a pound sign), and its record is appended to the file the
    router names for the current section and subsection, which stay as they
    were. *)
Theorem parseable_row_is_recorded (st : state) (raw : string) (r : row) :
  parse_component_row raw (current_section st) (current_subsection st) = Returned (Some r) ->
  is_heading (strip raw) = false /\
  process_line st raw =
    Returned {| rows_by_file :=
                  append_row
                    (determine_output_file (current_section st) (current_subsection st))
                    r (rows_by_file st);
                current_section := current_section st;
                current_subsection := current_subsection st |}.
Proof.
  intros H. pose proof H as A. apply parse_component_row_accepted in A.
  destruct A as (cid & rest & lead & m & S & L & _ & _ & _ & M & E).
  apply search_from_pound in M.
  assert (T : truthy (strip raw) = true).
  { destruct (strip raw) eqn:X; [|reflexivity].
    rewrite <- split_strip, X in S. discriminate. }
  assert (Z : String.eqb (strip raw) "0" = false).
  { destruct (String.eqb_spec (strip raw) "0") as [X|_]; [|reflexivity].
    rewrite <- split_strip, X in S. injection S as _ <-. simpl in L. lia. }
  assert (Hd : is_heading (strip raw) = false).
  { unfold is_heading. rewrite T, strip_idempotent. simpl negb. cbv iota.
    destruct (is_component_id _); [reflexivity|].
    destruct (_ <? _)%nat; [reflexivity|]. now rewrite M. }
  split; [exact Hd|].
  unfold process_line. rewrite T, Z, Hd, parse_component_row_strip, H. simpl.
  rewrite E. reflexivity.
Qed.

Definition sample_row : row :=
  {| section := "BOILERS";
     subsection := "";
     component_id := "ABC123";
     description := "Some description";
     selling_price_gbp := 1234.56;
     lead_time_days := 14 |}.

Lemma parseable_row_is_recorded_witness :
  is_heading (strip sample_row_line) = false /\
  process_line in_boilers sample_row_line =
    Returned {| rows_by_file := [("boilers_combi_ng.csv", [sample_row])];
                current_section := "BOILERS";
                current_subsection := "" |}.
Proof.
  assert (H : parse_component_row sample_row_line (current_section in_boilers)
                (current_subsection in_boilers) = Returned (Some sample_row))
    by (vm_compute; reflexivity).
  destruct (parseable_row_is_recorded in_boilers sample_row_line sample_row H) as [A B].
  split; [exact A|]. rewrite B. vm_compute. reflexivity.
Defined.

(** ** Lead time and exceptions *)























(** ** Invariants of the loop *)

(** What every step of the loop keeps, every run keeps. *)
Lemma process_lines_preserves (P : state -> Prop) :
  (forall st line st', P st -> process_line st line = Returned st' -> P st') ->
  forall lines st st', P st -> process_lines st lines = Returned st' -> P st'.
Proof.
  intros Step. induction lines as [|line lines IH]; intros st st' H; simpl.
  - now intros [= <-].
  - destruct (process_line st line) as [st1|] eqn:E; [|discriminate].
    apply IH. eapply Step; eauto.
Qed.

Lemma process_pages_preserves (P : state -> Prop) :
  (forall st line st', P st -> process_line st line = Returned st' -> P st') ->
  forall pages st st', P st -> process_pages st pages = Returned st' -> P st'.
Proof.
  intros Step. induction pages as [|page pages IH]; intros st st' H; simpl.
  - now intros [= <-].
  - destruct (process_page st page) as [st1|] eqn:E; [|discriminate].
    apply IH. destruct page as [text|]; simpl in E.
    + destruct (negb (truthy text)); [now injection E as <-|].
      eapply process_lines_preserves; eauto.
    + now injection E as <-.
Qed.

(** The cleaned label of a heading is never empty. *)
Lemma heading_label_nonempty line :
  is_heading (strip line) = true -> truthy (clean_heading (strip line)) = true.
Proof.
  unfold is_heading. rewrite strip_idempotent.
  destruct (negb (truthy (strip line))); [discriminate|].
  destruct (is_component_id _); [discriminate|].
  destruct (_ <? _)%nat; [discriminate|].
  destruct (has_char pound _); [discriminate|].
  destruct (clean_heading (strip line)); [|reflexivity].
  vm_compute. discriminate.
Qed.

(** X9.  A heading line always leaves a non-empty current section: either
    it opens a section under its own non-empty cleaned label, or it sets the
    subsection of a section that is already there. *)
Theorem heading_leaves_a_section (st : state) (raw : string) :
  classify (strip raw) = Heading ->
  exists st',
    process_line st raw = Returned st' /\
    truthy (current_section st') = true /\
    rows_by_file st' = rows_by_file st /\
    (current_section st' = clean_heading (strip raw) /\ current_subsection st' = EmptyString \/
     current_section st' = current_section st /\
     current_subsection st' = clean_heading (strip raw)).
Proof.
  intros C. rewrite process_line_by_class, C.
  apply classify_Heading, heading_label_nonempty in C.
  eexists. split; [reflexivity|]. unfold heading_update.
  destruct (is_major _ || negb (truthy (current_section st))) eqn:B; simpl.
  - auto.
  - apply orb_false_iff in B. destruct B as [_ B]. apply negb_false_iff in B. auto.
Qed.

Lemma heading_leaves_a_section_witness :
  exists st',
    process_line initial_state "Combi Natural Gas0" = Returned st' /\
    truthy (current_section st') = true /\
    rows_by_file st' = [] /\
    (current_section st' = "Combi Natural Gas" /\ current_subsection st' = EmptyString \/
     current_section st' = EmptyString /\
     current_subsection st' = "Combi Natural Gas").
Proof.
  apply (heading_leaves_a_section initial_state "Combi Natural Gas0"). reflexivity.
Defined.

(** A subsection is only ever set under a section. *)
Definition subsection_under_section (st : state) : Prop :=
  truthy (current_subsection st) = true -> truthy (current_section st) = true.

Lemma process_line_section_kept st line st' :
  truthy (current_section st) = true ->
  process_line st line = Returned st' ->
  truthy (current_section st') = true.
Proof.
  intros T. rewrite process_line_by_class.
  destruct (classify (strip line)) eqn:C.
  - intros [= <-]. apply classify_Heading, heading_label_nonempty in C.
    unfold heading_update. now destruct (is_major _ || _).
  - destruct (parse_component_row _ _ _) as [[r|]|e]; [| |discriminate];
      now intros [= <-].
  - now intros [= <-].
Qed.

Lemma process_line_subsection_under_section st line st' :
  subsection_under_section st ->
  process_line st line = Returned st' ->
  subsection_under_section st'.
Proof.
  unfold subsection_under_section. intros I. rewrite process_line_by_class.
  destruct (classify (strip line)) eqn:C.
  - intros [= <-]. unfold heading_update.
    destruct (is_major _ || negb (truthy (current_section st))) eqn:B; simpl.
    + discriminate.
    + intros _. apply orb_false_iff in B. destruct B as [_ B].
      now apply negb_false_iff in B.
  - destruct (parse_component_row _ _ _) as [[r|]|e]; [| |discriminate];
      now intros [= <-].
  - now intros [= <-].
Qed.

(** X10.  Along any run that returns, over lines or over pages, a section
    once set is never emptied again, and a subsection is never set without
    a section; so from the empty state a non-empty subsection always comes
    with a non-empty section. *)
Theorem section_state_invariants (pages : list (option string)) (st st' : state) :
  process_pages st pages = Returned st' ->
  (truthy (current_section st) = true -> truthy (current_section st') = true) /\
  (subsection_under_section st -> subsection_under_section st') /\
  (st = initial_state -> subsection_under_section st').
Proof.
  intros H. split; [|split].
  - intros T.
    exact (process_pages_preserves (fun s => truthy (current_section s) = true)
             process_line_section_kept pages st st' T H).
  - intros T.
    exact (process_pages_preserves subsection_under_section
             process_line_subsection_under_section pages st st' T H).
  - intros ->.
    apply (process_pages_preserves subsection_under_section
             process_line_subsection_under_section pages initial_state st');
      [discriminate|exact H].
Qed.

Definition two_pages : list (option string) :=
  [ Some ("BOILERS" ++ newline ++ "Combi Natural Gas0"); Some example_row_line ].

Lemma section_state_invariants_witness :
  exists st',
    process_pages initial_state two_pages = Returned st' /\
    truthy (current_section st') = true /\
    subsection_under_section st'.
Proof.
  eexists. split; [vm_compute; reflexivity|].
  split.
  - reflexivity.
  - apply (proj2 (proj2 (section_state_invariants two_pages initial_state _
                           ltac:(vm_compute; reflexivity)))).
    reflexivity.
Defined.

(** ** The table of rows *)

Lemma append_row_in output_file r m f rs r' :
  In (f, rs) (append_row output_file r m) -> In r' rs ->
  (exists rs0, In (f, rs0) m /\ In r' rs0) \/ (f = output_file /\ r' = r).
Proof.
  induction m as [|[g gs] m IH]; simpl.
  - intros [[= <- <-]|[]] [<-|[]]. now right.
  - destruct (String.eqb_spec g output_file) as [->|N].
    + intros [[= <- <-]|I] R.
      * apply in_app_or in R. destruct R as [R|[<-|[]]]; [left; eauto|now right].
      * left. eauto.
    + intros [[= <- <-]|I] R; [left; eauto|].
      destruct (IH I R) as [(rs0 & I0 & R0)|E]; [left; eauto|now right].
Qed.

Lemma append_row_keys output_file r m f :
  In f (map fst (append_row output_file r m)) <->
  f = output_file \/ In f (map fst m).
Proof.
  induction m as [|[g gs] m IH]; simpl.
  - intuition.
  - destruct (String.eqb_spec g output_file) as [->|N]; simpl.
    + intuition.
    + rewrite IH. intuition.
Qed.

Lemma append_row_NoDup output_file r m :
  NoDup (map fst m) -> NoDup (map fst (append_row output_file r m)).
Proof.
  induction m as [|[g gs] m IH]; simpl; intros D.
  - repeat constructor. intros [].
  - inversion D as [|? ? Ng D']; subst.
    destruct (String.eqb_spec g output_file) as [->|N]; simpl.
    + now constructor.
    + constructor; [|now apply IH].
      rewrite append_row_keys. intros [E|I]; [now apply N|now apply Ng].
Qed.

Lemma append_row_nonempty output_file r m :
  Forall (fun kv => nonempty (snd kv) = true) m ->
  Forall (fun kv => nonempty (snd kv) = true) (append_row output_file r m).
Proof.
  induction m as [|[g gs] m IH]; simpl; intros F.
  - now repeat constructor.
  - inversion F as [|? ? Hg F']; subst.
    destruct (String.eqb g output_file); constructor; auto.
    simpl. now destruct gs.
Qed.

Lemma append_row_total output_file r m :
  total_rows (append_row output_file r m) = S (total_rows m).
Proof.
  unfold total_rows. induction m as [|[g gs] m IH]; simpl; [reflexivity|].
  destruct (String.eqb g output_file); simpl.
  - rewrite length_app. simpl. lia.
  - rewrite IH. lia.
Qed.

(** What holds of a record the row parser returned for a given section
    state. *)
Definition valid_row (r : row) : Prop :=
  id_shape (component_id r) /\
  (0 < selling_price_gbp r)%Q /\ (0 <= lead_time_days r)%Z.

Lemma accepted_row_valid text cs css r :
  parse_component_row text cs css = Returned (Some r) ->
  section r = cs /\ subsection r = css /\ valid_row r.
Proof.
  intros H. apply parse_component_row_accepted in H.
  destruct H as (cid & rest & lead & m & S & _ & I & P & L & _ & ->). simpl.
  split; [reflexivity|]. split; [reflexivity|]. split; [|split]; simpl.
  - apply is_component_id_spec in I.
    pose proof (split_tokens text) as T. rewrite S in T.
    apply Forall_inv in T. destruct T as [_ T].
    now rewrite (strip_no_space _ T) in I.
  - now apply float_not_zero_positive.
  - now apply extract_lead_time_nonneg in L.
Qed.

(** One step of the loop, seen from the table of rows: untouched, or one
    record more, valid and filed where the router sends the state's section
    and subsection, which it carries. *)
Lemma process_line_rows st line st' :
  process_line st line = Returned st' ->
  rows_by_file st' = rows_by_file st \/
  exists r,
    rows_by_file st' =
      append_row (determine_output_file (section r) (subsection r)) r (rows_by_file st) /\
    section r = current_section st /\ subsection r = current_subsection st /\
    valid_row r.
Proof.
  rewrite process_line_by_class. destruct (classify (strip line)).
  - intros [= <-]. left. unfold heading_update. now destruct (_ || _).
  - destruct (parse_component_row _ _ _) as [[r|]|e] eqn:P; [| |discriminate].
    + intros [= <-]. right. exists r. apply accepted_row_valid in P. simpl. tauto.
    + intros [= <-]. now left.
  - intros [= <-]. now left.
Qed.

(** Every record of the table is valid and sits in the file the router
    names for the record's own section and subsection. *)
Definition filed_where_routed (m : list (string * list row)) : Prop :=
  forall f rs r,
    In (f, rs) m -> In r rs ->
    f = determine_output_file (section r) (subsection r) /\ valid_row r.

Lemma process_line_filed st line st' :
  filed_where_routed (rows_by_file st) ->
  process_line st line = Returned st' ->
  filed_where_routed (rows_by_file st').
Proof.
  intros F H. apply process_line_rows in H.
  destruct H as [->|(r & -> & _ & _ & V)]; [exact F|].
  intros f rs r' I R. destruct (append_row_in _ _ _ _ _ _ I R) as [(rs0 & I0 & R0)|[-> ->]].
  - now apply (F f rs0).
  - now split.
Qed.

(** X11.  In the table [parse_pdf] returns, every record lies in the file
    that [determine_output_file] names for the record's own section and
    subsection, so in one file only; its identifier has the
    component-identifier shape, its price is above zero and its lead time
    is not negative. *)
Theorem every_row_filed_where_routed
  (pages : list (option string)) (m : list (string * list row))
  (f : string) (rs : list row) (r : row) :
  parse_pdf pages = Returned m ->
  In (f, rs) m -> In r rs ->
  f = determine_output_file (section r) (subsection r) /\
  id_shape (component_id r) /\
  (0 < selling_price_gbp r)%Q /\ (0 <= lead_time_days r)%Z.
Proof.
  unfold parse_pdf.
  destruct (process_pages initial_state pages) as [st|] eqn:E; [|discriminate].
  intros [= <-].
  apply (process_pages_preserves (fun s => filed_where_routed (rows_by_file s))
           process_line_filed pages initial_state st); [|exact E].
  intros ? ? ? [].
Qed.

Lemma every_row_filed_where_routed_witness :
  "boilers_combi_ng.csv" =
    determine_output_file (section (example_row "BOILERS" "Combi Natural Gas"))
                          (subsection (example_row "BOILERS" "Combi Natural Gas")) /\
  id_shape "AB123" /\ (0 < 850.00)%Q /\ (0 <= 10)%Z.
Proof.
  apply (every_row_filed_where_routed two_pages
           [("boilers_combi_ng.csv", [example_row "BOILERS" "Combi Natural Gas"])]
           "boilers_combi_ng.csv" [example_row "BOILERS" "Combi Natural Gas"]
           (example_row "BOILERS" "Combi Natural Gas")).
  - vm_compute. reflexivity.
  - now left.
  - now left.
Defined.

Lemma determine_output_file_range section subsection :
  In (determine_output_file section subsection) (map fst FILE_MAPPING) \/
  determine_output_file section subsection = unclassified.
Proof.
  unfold determine_output_file.
  destruct (first_pass _ _ _) as [f|] eqn:E1; [left; now apply first_pass_in in E1|].
  destruct (second_pass _ _) as [f|] eqn:E2; [left; now apply second_pass_in in E2|].
  destruct (third_pass _ _) as [f|] eqn:E3; [left; now apply third_pass_in in E3|].
  now right.
Qed.

(** The file names the run can produce. *)
Definition output_files : list string := (map fst FILE_MAPPING ++ [unclassified])%list.

(** The shape of the table: distinct keys, among the file names of the
    mapping and the fallback, none with an empty list. *)
Definition table_shape (m : list (string * list row)) : Prop :=
  NoDup (map fst m) /\
  Forall (fun kv => nonempty (snd kv) = true) m /\
  incl (map fst m) output_files.

Lemma process_line_table_shape st line st' :
  table_shape (rows_by_file st) ->
  process_line st line = Returned st' ->
  table_shape (rows_by_file st').
Proof.
  intros (D & N & K) H. apply process_line_rows in H.
  destruct H as [->|(r & -> & _)]; [now repeat split|].
  split; [now apply append_row_NoDup|]. split; [now apply append_row_nonempty|].
  intros f I. apply append_row_keys in I. destruct I as [->|I]; [|now apply K].
  unfold output_files. apply in_or_app.
  destruct (determine_output_file_range (section r) (subsection r)) as [R|R].
  - now left.
  - right. rewrite R. now left.
Qed.

(** X12.  The table [parse_pdf] returns has each file name once, all of
    them among the thirteen files of [FILE_MAPPING] and "unclassified.csv",
    so at most fourteen, and no file with an empty list: [write_csv_files]
    never passes over an entry. *)
Theorem table_keys (pages : list (option string)) (m : list (string * list row)) :
  parse_pdf pages = Returned m ->
  NoDup (map fst m) /\
  (forall f, In f (map fst m) -> In f (map fst FILE_MAPPING) \/ f = unclassified) /\
  (List.length m <= 14)%nat /\
  Forall (fun kv => snd kv <> []) m /\
  files_written m = map fst m.
Proof.
  unfold parse_pdf.
  destruct (process_pages initial_state pages) as [st|] eqn:E; [|discriminate].
  intros [= <-].
  assert (T : table_shape (rows_by_file st)).
  { apply (process_pages_preserves (fun s => table_shape (rows_by_file s))
             process_line_table_shape pages initial_state st); [|exact E].
    split; [constructor|]. split; [constructor|]. intros ? []. }
  destruct T as (D & N & K). split; [exact D|]. split; [|split; [|split]].
  - intros f I. apply K in I. unfold output_files in I.
    apply in_app_or in I. destruct I as [I|[<-|[]]]; auto.
  - rewrite <- (length_map fst).
    apply (NoDup_incl_length D) in K. exact K.
  - revert N. apply Forall_impl. intros [f rs]. simpl. now destruct rs.
  - unfold files_written. clear D K. induction N as [|kv l H N IH]; [reflexivity|].
    simpl. rewrite H. simpl. now rewrite IH.
Qed.

Lemma table_keys_witness :
  exists m,
    parse_pdf two_pages = Returned m /\
    NoDup (map fst m) /\ (List.length m <= 14)%nat /\ files_written m = map fst m.
Proof.
  eexists. split; [vm_compute; reflexivity|].
  destruct (table_keys two_pages _ ltac:(vm_compute; reflexivity))
    as (D & _ & L & _ & W).
  split; [exact D|]. split; [exact L|exact W].
Defined.

Lemma rows_of_in filename m rs : rows_of filename m = Some rs -> In (filename, rs) m.
Proof.
  induction m as [|[f fs] m IH]; simpl; [discriminate|].
  destruct (String.eqb_spec f filename) as [->|_].
  - intros [= <-]. now left.
  - intros H. right. now apply IH.
Qed.

Lemma in_rows_of filename m rs :
  In (filename, rs) m -> rows_of filename m <> None.
Proof.
  induction m as [|[f fs] m IH]; simpl; [contradiction|].
  destruct (String.eqb_spec f filename) as [->|N]; [discriminate|].
  intros [[= E _]|I]; [contradiction|now apply IH].
Qed.

(** X13.  The warning of [main] appears exactly when the returned table
    holds a record that [determine_output_file] sends to
    "unclassified.csv", and the count it prints is then at least one. *)
Theorem unclassified_warning_iff (pages : list (option string)) (m : list (string * list row)) :
  parse_pdf pages = Returned m ->
  (unclassified_warning m <> None <->
   exists f rs r,
     In (f, rs) m /\ In r rs /\
     determine_output_file (section r) (subsection r) = unclassified) /\
  (forall n, unclassified_warning m = Some n -> (1 <= n)%nat).
Proof.
  unfold parse_pdf.
  destruct (process_pages initial_state pages) as [st|] eqn:E; [|discriminate].
  intros [= <-].
  assert (F : filed_where_routed (rows_by_file st)).
  { apply (process_pages_preserves (fun s => filed_where_routed (rows_by_file s))
             process_line_filed pages initial_state st); [|exact E].
    intros ? ? ? []. }
  assert (T : table_shape (rows_by_file st)).
  { apply (process_pages_preserves (fun s => table_shape (rows_by_file s))
             process_line_table_shape pages initial_state st); [|exact E].
    split; [constructor|]. split; [constructor|]. intros ? []. }
  destruct T as (_ & N & _). rewrite Forall_forall in N.
  unfold unclassified_warning. fold unclassified.
  split.
  - split.
    + destruct (rows_of unclassified (rows_by_file st)) as [rs|] eqn:R;
        [intros _|intros H; now contradiction H].
      apply rows_of_in in R. pose proof (N _ R) as Ne. simpl in Ne.
      destruct rs as [|r rs]; [discriminate|].
      exists unclassified, (r :: rs), r. split; [exact R|]. split; [now left|].
      symmetry. apply (F unclassified (r :: rs) r R). now left.
    + intros (f & rs & r & I & J & U).
      destruct (F f rs r I J) as [Ef _]. rewrite U in Ef. subst f.
      apply in_rows_of in I.
      destruct (rows_of unclassified (rows_by_file st)); [discriminate|contradiction].
  - intros n. destruct (rows_of unclassified (rows_by_file st)) as [rs|] eqn:R;
      [|discriminate].
    intros [= <-]. apply rows_of_in in R. apply N in R. simpl in R.
    destruct rs; [discriminate|simpl; lia].
Qed.

Definition stray_pages : list (option string) :=
  [ Some ("Zqx Boiler" ++ newline ++ "Zqx Combi" ++ newline ++ example_row_line) ].

Lemma unclassified_warning_iff_witness :
  exists m,
    parse_pdf stray_pages = Returned m /\
    unclassified_warning m <> None /\ (1 <= 1)%nat.
Proof.
  eexists. split; [vm_compute; reflexivity|].
  destruct (unclassified_warning_iff stray_pages _ ltac:(vm_compute; reflexivity))
    as [A B].
  split.
  - apply (proj2 A). do 3 eexists.
    split; [now left|]. split; [now left|]. vm_compute. reflexivity.
  - apply (B 1%nat). vm_compute. reflexivity.
Defined.

(** ** Lines, pages and counts *)

Lemma process_lines_app l1 l2 st :
  process_lines st (l1 ++ l2) =
  match process_lines st l1 with
  | Returned st' => process_lines st' l2
  | Raised e => Raised e
  end.
Proof.
  revert st. induction l1 as [|line l1 IH]; intros st; simpl; [reflexivity|].
  destruct (process_line st line); [apply IH|reflexivity].
Qed.

Lemma process_pages_app p1 p2 st :
  process_pages st (p1 ++ p2) =
  match process_pages st p1 with
  | Returned st' => process_pages st' p2
  | Raised e => Raised e
  end.
Proof.
  revert st. induction p1 as [|page p1 IH]; intros st; simpl; [reflexivity|].
  destruct (process_page st page); [apply IH|reflexivity].
Qed.

Lemma split_on_from_app sep a b :
  forall piece,
    split_on_from sep piece (a ++ String sep b) =
    (split_on_from sep piece a ++ split_on_from sep EmptyString b)%list.
Proof.
  induction a as [|c a IH]; intros piece; simpl.
  - now rewrite Ascii.eqb_refl.
  - destruct (Ascii.eqb c sep); simpl; now rewrite IH.
Qed.

(** A page is its lines; an empty text has the one line "", which the loop
    drops. *)
Lemma process_page_lines st text :
  process_page st (Some text) = process_lines st (split_on (ascii_of_N 10) text).
Proof.
  destruct text as [|c text]; reflexivity.
Qed.

(** X14.  Page breaks do not matter: a page cut in two at a newline gives
    the same result as the whole page, and a page without text ([None] or
    the empty string) can be left out, anywhere in the document; section
    and subsection carry over from page to page. *)
Theorem page_breaks_do_not_matter (before after : list (option string)) (a b : string) :
  parse_pdf (before ++ Some (a ++ newline ++ b) :: after) =
    parse_pdf (before ++ Some a :: Some b :: after) /\
  parse_pdf (before ++ None :: after) = parse_pdf (before ++ after) /\
  parse_pdf (before ++ Some EmptyString :: after) = parse_pdf (before ++ after).
Proof.
  unfold parse_pdf. rewrite !process_pages_app.
  destruct (process_pages initial_state before) as [st|]; [|auto].
  split; [|split; reflexivity].
  cbn [process_pages]. rewrite !process_page_lines.
  unfold split_on, newline. cbn [append]. rewrite split_on_from_app, process_lines_app.
  fold (split_on (ascii_of_N 10) a). fold (split_on (ascii_of_N 10) b).
  destruct (process_lines st (split_on (ascii_of_N 10) a));
    [now rewrite process_page_lines|reflexivity].
Qed.

Lemma process_line_total st line st' :
  process_line st line = Returned st' ->
  (total_rows (rows_by_file st) <= total_rows (rows_by_file st') <=
   S (total_rows (rows_by_file st)))%nat.
Proof.
  intros H. apply process_line_rows in H.
  destruct H as [->|(r & -> & _)]; [lia|]. rewrite append_row_total. lia.
Qed.

Lemma process_lines_total lines :
  forall st st',
    process_lines st lines = Returned st' ->
    (total_rows (rows_by_file st) <= total_rows (rows_by_file st') <=
     total_rows (rows_by_file st) + List.length lines)%nat.
Proof.
  induction lines as [|line lines IH]; intros st st'; simpl.
  - intros [= <-]. lia.
  - destruct (process_line st line) as [st1|] eqn:E; [|discriminate].
    intros H. apply process_line_total in E. apply IH in H. lia.
Qed.

(** The number of lines the loop reads: those of the pages with text. *)
Definition line_count (pages : list (option string)) : nat :=
  list_sum (map (fun page => match page with
                             | Some text =>
                                 if truthy text
                                 then List.length (split_on (ascii_of_N 10) text)
                                 else 0%nat
                             | None => 0%nat
                             end) pages).

Lemma process_pages_total pages :
  forall st st',
    process_pages st pages = Returned st' ->
    (total_rows (rows_by_file st) <= total_rows (rows_by_file st') <=
     total_rows (rows_by_file st) + line_count pages)%nat.
Proof.
  induction pages as [|page pages IH]; intros st st'; cbn [process_pages].
  - intros [= <-]. unfold line_count. simpl. lia.
  - destruct (process_page st page) as [st1|] eqn:E; [|discriminate].
    intros H. apply IH in H. destruct page as [text|].
    + change (line_count (Some text :: pages))
        with ((if truthy text then List.length (split_on (ascii_of_N 10) text) else 0)
              + line_count pages)%nat.
      unfold process_page in E. destruct (truthy text); cbn [negb] in E.
      * apply process_lines_total in E. lia.
      * injection E as <-. lia.
    + injection E as <-.
      change (line_count (None :: pages)) with (0 + line_count pages)%nat. lia.
Qed.

(** X15.  The loop files at most one record per line and never removes
    one: the total [main] reports is at most the number of lines of the
    document, and along a run the total never goes down. *)
Theorem row_count_bounded (pages : list (option string)) :
  (forall m, parse_pdf pages = Returned m -> (total_rows m <= line_count pages)%nat) /\
  (forall st st', process_pages st pages = Returned st' ->
                  (total_rows (rows_by_file st) <= total_rows (rows_by_file st'))%nat).
Proof.
  split.
  - intros m. unfold parse_pdf.
    destruct (process_pages initial_state pages) as [st|] eqn:E; [|discriminate].
    intros [= <-]. apply process_pages_total in E. simpl in E. lia.
  - intros st st' H. apply process_pages_total in H. lia.
Qed.

Lemma row_count_bounded_witness :
  (total_rows [("boilers_combi_ng.csv", [example_row "BOILERS" "Combi Natural Gas"])]
   <= line_count two_pages)%nat.
Proof.
  apply (proj1 (row_count_bounded two_pages)). vm_compute. reflexivity.
Defined.

(** ** More on routing *)

Lemma first_pass_none_iff mapping section subsection :
  first_pass mapping section subsection = None <->
  forall f cfg, In (f, cfg) mapping ->
    section_match cfg section = true ->
    nonempty (subsections cfg) = true /\ subsection_match cfg subsection = false.
Proof.
  induction mapping as [|[g c] rest IH]; simpl.
  - split; [intros _ ? ? []|reflexivity].
  - destruct (section_match c section) eqn:S.
    + destruct (nonempty (subsections c)) eqn:N; simpl.
      * destruct (subsection_match c subsection) eqn:M.
        -- split; [discriminate|]. intros H.
           destruct (H g c (or_introl eq_refl) S). congruence.
        -- rewrite IH. split.
           ++ intros H f cfg [[= <- <-]|I]; [auto|exact (H f cfg I)].
           ++ intros H f cfg I. apply (H f cfg). now right.
      * split; [discriminate|]. intros H.
        destruct (H g c (or_introl eq_refl) S). congruence.
    + rewrite IH. split.
      * intros H f cfg [[= <- <-]|I]; [congruence|exact (H f cfg I)].
      * intros H f cfg I. apply (H f cfg). now right.
Qed.

Lemma subsection_match_needs_labels cfg subsection :
  subsection_match cfg subsection = true -> nonempty (subsections cfg) = true.
Proof. unfold subsection_match. now destruct (subsections cfg). Qed.

Lemma keyword_match_needs_keywords cfg subsection :
  keyword_match cfg subsection = true -> nonempty (keywords cfg) = true.
Proof. unfold keyword_match. now destruct (keywords cfg). Qed.

Lemma second_pass_none_iff mapping subsection :
  second_pass mapping subsection = None <->
  forall f cfg, In (f, cfg) mapping -> subsection_match cfg subsection = false.
Proof.
  induction mapping as [|[g c] rest IH]; simpl.
  - split; [intros _ ? ? []|reflexivity].
  - destruct (subsection_match c subsection) eqn:M.
    + rewrite (subsection_match_needs_labels _ _ M). simpl.
      split; [discriminate|]. intros H.
      specialize (H g c (or_introl eq_refl)). congruence.
    + rewrite andb_false_r, IH. split.
      * intros H f cfg [[= <- <-]|I]; [exact M|exact (H f cfg I)].
      * intros H f cfg I. apply (H f cfg). now right.
Qed.

Lemma third_pass_none_iff mapping subsection :
  third_pass mapping subsection = None <->
  forall f cfg, In (f, cfg) mapping -> keyword_match cfg subsection = false.
Proof.
  induction mapping as [|[g c] rest IH]; simpl.
  - split; [intros _ ? ? []|reflexivity].
  - destruct (keyword_match c subsection) eqn:M.
    + rewrite (keyword_match_needs_keywords _ _ M). simpl.
      split; [discriminate|]. intros H.
      specialize (H g c (or_introl eq_refl)). congruence.
    + rewrite andb_false_r, IH. split.
      * intros H f cfg [[= <- <-]|I]; [exact M|exact (H f cfg I)].
      * intros H f cfg I. apply (H f cfg). now right.
Qed.

(** X16.  The router answers "unclassified.csv" exactly when no rule of
    the table matches in any pass: no subsection label overlaps the
    subsection, no keyword occurs in it, and every rule whose section
    labels overlap the section has subsection labels (none of which
    overlaps). *)
Theorem unclassified_iff_no_rule_matches (section subsection : string) :
  determine_output_file section subsection = unclassified <->
  forall f cfg, In (f, cfg) FILE_MAPPING ->
    subsection_match cfg subsection = false /\
    keyword_match cfg subsection = false /\
    (section_match cfg section = true -> nonempty (subsections cfg) = true).
Proof.
  pose proof unclassified_not_in_table as N.
  unfold determine_output_file. split.
  - destruct (first_pass _ _ _) as [f|] eqn:E1.
    { intros ->. apply first_pass_in in E1. contradiction. }
    destruct (second_pass _ _) as [f|] eqn:E2.
    { intros ->. apply second_pass_in in E2. contradiction. }
    destruct (third_pass _ _) as [f|] eqn:E3.
    { intros ->. apply third_pass_in in E3. contradiction. }
    intros _ f cfg I.
    split; [now apply (proj1 (second_pass_none_iff _ _) E2 f cfg)|].
    split; [now apply (proj1 (third_pass_none_iff _ _) E3 f cfg)|].
    intros S. now apply (proj1 (first_pass_none_iff _ _ _) E1 f cfg).
  - intros H.
    rewrite (proj2 (first_pass_none_iff FILE_MAPPING section subsection)).
    + rewrite (proj2 (second_pass_none_iff FILE_MAPPING subsection)).
      * rewrite (proj2 (third_pass_none_iff FILE_MAPPING subsection)); [reflexivity|].
        intros f cfg I. now apply (H f cfg).
      * intros f cfg I. now apply (H f cfg).
    + intros f cfg I S. destruct (H f cfg I) as (A & _ & B). auto.
Qed.

Lemma unclassified_iff_no_rule_matches_witness :
  determine_output_file "Zqx Boiler" "Zqx Combi" = unclassified /\
  subsection_match smart_hive_config "Zqx Combi" = false.
Proof.
  assert (A : forall f cfg, In (f, cfg) FILE_MAPPING ->
                subsection_match cfg "Zqx Combi" = false /\
                keyword_match cfg "Zqx Combi" = false /\
                (section_match cfg "Zqx Boiler" = true ->
                 nonempty (subsections cfg) = true)).
  { intros f cfg I. simpl in I.
    repeat (destruct I as [I|I];
            [injection I as <- <-; vm_compute; repeat split; discriminate|]).
    contradiction. }
  split.
  - apply (proj2 (unclassified_iff_no_rule_matches "Zqx Boiler" "Zqx Combi")). exact A.
  - apply (proj1 (unclassified_iff_no_rule_matches "Zqx Boiler" "Zqx Combi")
             ltac:(vm_compute; reflexivity) "smart_hive.csv" smart_hive_config).
    rewrite FILE_MAPPING_around_smart_hive. apply in_or_app. right. now left.
Defined.

Lemma first_pass_some mapping section subsection f :
  first_pass mapping section subsection = Some f ->
  exists cfg, In (f, cfg) mapping /\ section_match cfg section = true /\
              (subsections cfg = [] \/ subsection_match cfg subsection = true).
Proof.
  induction mapping as [|[g c] rest IH]; simpl; [discriminate|].
  destruct (section_match c section) eqn:S.
  - destruct (subsections c) as [|l ls] eqn:L; simpl.
    + intros [= <-]. exists c. auto.
    + destruct (subsection_match c subsection) eqn:M.
      * intros [= <-]. exists c. auto.
      * intros H. destruct (IH H) as (cfg & I & R). exists cfg. auto.
  - intros H. destruct (IH H) as (cfg & I & R). exists cfg. auto.
Qed.

Lemma second_pass_some mapping subsection f :
  second_pass mapping subsection = Some f ->
  exists cfg, In (f, cfg) mapping /\ subsection_match cfg subsection = true.
Proof.
  induction mapping as [|[g c] rest IH]; simpl; [discriminate|].
  destruct (nonempty _ && subsection_match c subsection) eqn:M.
  - intros [= <-]. apply andb_prop in M. exists c. tauto.
  - intros H. destruct (IH H) as (cfg & I & R). exists cfg. auto.
Qed.

Lemma third_pass_some mapping subsection f :
  third_pass mapping subsection = Some f ->
  exists cfg, In (f, cfg) mapping /\ keyword_match cfg subsection = true.
Proof.
  induction mapping as [|[g c] rest IH]; simpl; [discriminate|].
  destruct (nonempty _ && keyword_match c subsection) eqn:M.
  - intros [= <-]. apply andb_prop in M. exists c. tauto.
  - intros H. destruct (IH H) as (cfg & I & R). exists cfg. auto.
Qed.

(** X17.  A file other than "unclassified.csv" is only ever answered for a
    rule of the table that matched: its section labels overlap the section
    and it has no subsection labels or one that overlaps the subsection, or
    one of its subsection labels overlaps the subsection, or one of its
    keywords occurs in the subsection. *)
Theorem routed_file_matched (section subsection f : string) :
  determine_output_file section subsection = f ->
  f <> unclassified ->
  exists cfg,
    In (f, cfg) FILE_MAPPING /\
    (section_match cfg section = true /\
     (subsections cfg = [] \/ subsection_match cfg subsection = true) \/
     subsection_match cfg subsection = true \/
     keyword_match cfg subsection = true).
Proof.
  unfold determine_output_file. intros H N.
  destruct (first_pass _ _ _) as [g|] eqn:E1.
  { subst g. apply first_pass_some in E1. destruct E1 as (cfg & I & R). eauto. }
  destruct (second_pass _ _) as [g|] eqn:E2.
  { subst g. apply second_pass_some in E2. destruct E2 as (cfg & I & R). eauto. }
  destruct (third_pass _ _) as [g|] eqn:E3.
  { subst g. apply third_pass_some in E3. destruct E3 as (cfg & I & R). eauto 6. }
  now contradiction N.
Qed.

Lemma routed_file_matched_witness :
  exists cfg,
    In ("controls_and_stats.csv", cfg) FILE_MAPPING /\
    (section_match cfg "Zqx" = true /\
     (subsections cfg = [] \/ subsection_match cfg "Room thermostats" = true) \/
     subsection_match cfg "Room thermostats" = true \/
     keyword_match cfg "Room thermostats" = true).
Proof.
  apply (routed_file_matched "Zqx" "Room thermostats" "controls_and_stats.csv").
  - vm_compute. reflexivity.
  - discriminate.
Defined.

Lemma lower_char_idempotent c : lower_char (lower_char c) = lower_char c.
Proof. each_char c. Qed.

Lemma lower_idempotent s : lower (lower s) = lower s.
Proof.
  unfold lower. induction s as [|c s IH]; simpl; [reflexivity|].
  now rewrite lower_char_idempotent, IH.
Qed.

Lemma overlaps_lower a b1 b2 : lower b1 = lower b2 -> overlaps a b1 = overlaps a b2.
Proof. unfold overlaps. now intros ->. Qed.

Lemma existsb_same {A : Type} (f g : A -> bool) (l : list A) :
  (forall a, f a = g a) -> existsb f l = existsb g l.
Proof.
  intros E. induction l as [|a l IH]; simpl; [reflexivity|]. now rewrite E, IH.
Qed.

Lemma passes_lower mapping s1 s2 ss1 ss2 :
  lower s1 = lower s2 -> lower ss1 = lower ss2 ->
  first_pass mapping s1 ss1 = first_pass mapping s2 ss2 /\
  second_pass mapping ss1 = second_pass mapping ss2 /\
  third_pass mapping ss1 = third_pass mapping ss2.
Proof.
  intros Es Ess.
  assert (A : forall cfg, section_match cfg s1 = section_match cfg s2).
  { intros cfg. unfold section_match. apply existsb_same.
    intros a. now apply overlaps_lower. }
  assert (B : forall cfg, subsection_match cfg ss1 = subsection_match cfg ss2).
  { intros cfg. unfold subsection_match. apply existsb_same.
    intros a. now apply overlaps_lower. }
  assert (C : forall cfg, keyword_match cfg ss1 = keyword_match cfg ss2).
  { intros cfg. unfold keyword_match. now rewrite Ess. }
  induction mapping as [|[g c] rest (I1 & I2 & I3)]; simpl; [auto|].
  now rewrite A, B, C, I1, I2, I3.
Qed.

(** X18.  Routing ignores letter case: two (section, subsection) pairs that
    agree once lowercased get the same file; in particular a pair and its
    lowercased form do. *)
Theorem routing_ignores_case (s1 s2 ss1 ss2 : string) :
  (lower s1 = lower s2 -> lower ss1 = lower ss2 ->
   determine_output_file s1 ss1 = determine_output_file s2 ss2) /\
  determine_output_file (lower s1) (lower ss1) = determine_output_file s1 ss1.
Proof.
  assert (G : forall a b c d, lower a = lower b -> lower c = lower d ->
                determine_output_file a c = determine_output_file b d).
  { intros a b c d Es Ess. unfold determine_output_file.
    destruct (passes_lower FILE_MAPPING a b c d Es Ess) as (-> & -> & ->).
    reflexivity. }
  split; [apply G|]. apply G; apply lower_idempotent.
Qed.

Lemma routing_ignores_case_witness :
  determine_output_file "BOILERS" "COMBI LPG" = determine_output_file "boilers" "Combi lpg".
Proof.
  apply (proj1 (routing_ignores_case "BOILERS" "boilers" "COMBI LPG" "Combi lpg"));
    reflexivity.
Defined.

(** ** Prices *)

Lemma search_without_pound text :
  has_char pound text = false -> PRICE_PATTERN_search text = None.
Proof.
  intros H. unfold PRICE_PATTERN_search.
  destruct (search_from 0 text) as [m|] eqn:E; [|reflexivity].
  apply search_from_pound in E. congruence.
Qed.

(** X19.  [extract_price] never gives a negative amount, and gives 0.0 for
    a text without a pound sign; such a line is rejected by
    [parse_component_row], whatever else it holds. *)
Theorem price_needs_pound_sign (text : string) :
  (0 <= extract_price text)%Q /\
  (has_char pound text = false ->
   extract_price text = 0%Q /\
   forall cs css, parse_component_row text cs css = Returned None).
Proof.
  split.
  - unfold extract_price. destruct (PRICE_PATTERN_search text) as [m|]; [|apply Qle_refl].
    destruct (float_of_string _) as [q|] eqn:F; [|apply Qle_refl].
    now apply float_of_string_nonneg in F.
  - intros H.
    assert (Z : forall t, has_char pound t = false -> extract_price t = 0%Q).
    { intros t Ht. unfold extract_price. now rewrite search_without_pound. }
    split; [now apply Z|]. intros cs css. unfold parse_component_row.
    destruct (_ <? 3)%nat; [reflexivity|].
    destruct (negb _); [reflexivity|].
    rewrite Z; [reflexivity|].
    destruct (has_char pound (strip text)) eqn:S; [|reflexivity].
    apply has_char_strip in S. congruence.
Qed.

Lemma price_needs_pound_sign_witness :
  extract_price "AB123 Worcester Combi 850.00 10" = 0%Q /\
  forall cs css,
    parse_component_row "AB123 Worcester Combi 850.00 10" cs css = Returned None.
Proof.
  apply (proj2 (price_needs_pound_sign "AB123 Worcester Combi 850.00 10")).
  reflexivity.
Defined.

(** ** Order and the rows before the first heading *)

Lemma append_row_extends output_file r m f rs :
  In (f, rs) m -> exists more, In (f, (rs ++ more)%list) (append_row output_file r m).
Proof.
  induction m as [|[g gs] m IH]; simpl; [contradiction|].
  destruct (String.eqb g output_file).
  - intros [[= -> ->]|I].
    + exists [r]. now left.
    + exists []. rewrite app_nil_r. now right.
  - intros [[= -> ->]|I].
    + exists []. rewrite app_nil_r. now left.
    + destruct (IH I) as (more & J). exists more. now right.
Qed.

(** The lists of [m0] are still there, each possibly with records after
    it. *)
Definition extends (m0 m : list (string * list row)) : Prop :=
  forall f rs, In (f, rs) m0 -> exists more, In (f, (rs ++ more)%list) m.

Lemma process_line_extends m0 st line st' :
  extends m0 (rows_by_file st) ->
  process_line st line = Returned st' ->
  extends m0 (rows_by_file st').
Proof.
  intros X H. apply process_line_rows in H.
  destruct H as [->|(r & -> & _)]; [exact X|].
  intros f rs I. destruct (X f rs I) as (more & J).
  destruct (append_row_extends (determine_output_file (section r) (subsection r))
              r _ _ _ J) as (more' & K).
  exists (more ++ more')%list. now rewrite app_assoc.
Qed.

(** X20.  The table only grows at the ends of its lists: after any further
    pages each file that was there is still there with the same records in
    the same order, possibly followed by new ones. *)
Theorem rows_only_appended (pages : list (option string)) (st st' : state)
  (f : string) (rs : list row) :
  process_pages st pages = Returned st' ->
  In (f, rs) (rows_by_file st) ->
  exists more, In (f, (rs ++ more)%list) (rows_by_file st').
Proof.
  intros H.
  apply (process_pages_preserves (fun s => extends (rows_by_file st) (rows_by_file s))
           (process_line_extends (rows_by_file st)) pages st st'); [|exact H].
  intros g gs I. exists []. now rewrite app_nil_r.
Qed.

Definition one_row_state : state :=
  {| rows_by_file := [("boilers_combi_ng.csv", [example_row "BOILERS" "Combi Natural Gas"])];
     current_section := "BOILERS";
     current_subsection := "Combi Natural Gas" |}.

Lemma rows_only_appended_witness :
  exists more,
    In ("boilers_combi_ng.csv",
        ([example_row "BOILERS" "Combi Natural Gas"] ++ more)%list)
       [("boilers_combi_ng.csv",
         [example_row "BOILERS" "Combi Natural Gas";
          example_row "BOILERS" "Combi Natural Gas"])].
Proof.
  apply (rows_only_appended [Some example_row_line] one_row_state
           {| rows_by_file :=
                [("boilers_combi_ng.csv",
                  [example_row "BOILERS" "Combi Natural Gas";
                   example_row "BOILERS" "Combi Natural Gas"])];
              current_section := "BOILERS";
              current_subsection := "Combi Natural Gas" |}).
  - vm_compute. reflexivity.
  - now left.
Defined.

(** The state and the records stored so far agree that a subsection comes
    with a section. *)
Definition sections_consistent (st : state) : Prop :=
  subsection_under_section st /\
  forall f rs r, In (f, rs) (rows_by_file st) -> In r rs ->
    (truthy (subsection r) = true -> truthy (section r) = true).

Lemma process_line_sections_consistent st line st' :
  sections_consistent st ->
  process_line st line = Returned st' ->
  sections_consistent st'.
Proof.
  intros [U R] H. split; [now apply (process_line_subsection_under_section st line)|].
  pose proof H as K. apply process_line_rows in K.
  assert (S : rows_by_file st' = rows_by_file st \/
              exists r, rows_by_file st' =
                          append_row (determine_output_file (section r) (subsection r)) r
                                     (rows_by_file st) /\
                        (truthy (subsection r) = true -> truthy (section r) = true)).
  { destruct K as [K|(r & K & Es & Ess & _)]; [now left|right].
    exists r. split; [exact K|]. rewrite Es, Ess. exact U. }
  destruct S as [->|(r & -> & Hr)]; [exact R|].
  intros f rs r' I J.
  destruct (append_row_in _ _ _ _ _ _ I J) as [(rs0 & I0 & J0)|[_ ->]];
    [now apply (R f rs0)|exact Hr].
Qed.

(** X21.  A record stored with an empty section, that is, a row met before
    the first heading, has an empty subsection too and lies in
    "core_packs.csv". *)
Theorem rows_before_first_heading (pages : list (option string))
  (m : list (string * list row)) (f : string) (rs : list row) (r : row) :
  parse_pdf pages = Returned m ->
  In (f, rs) m -> In r rs ->
  section r = EmptyString ->
  subsection r = EmptyString /\ f = "core_packs.csv".
Proof.
  unfold parse_pdf.
  destruct (process_pages initial_state pages) as [st|] eqn:E; [|discriminate].
  intros [= <-] I J S.
  assert (C : sections_consistent st).
  { apply (process_pages_preserves sections_consistent
             process_line_sections_consistent pages initial_state st); [|exact E].
    split; [discriminate|]. intros ? ? ? []. }
  assert (F : filed_where_routed (rows_by_file st)).
  { apply (process_pages_preserves (fun s => filed_where_routed (rows_by_file s))
             process_line_filed pages initial_state st); [|exact E].
    intros ? ? ? []. }
  destruct C as [_ C]. specialize (C f rs r I J). rewrite S in C.
  assert (Ess : subsection r = EmptyString).
  { destruct (subsection r); [reflexivity|]. discriminate (C eq_refl). }
  split; [exact Ess|].
  destruct (F f rs r I J) as [-> _]. rewrite S, Ess. reflexivity.
Qed.

Lemma rows_before_first_heading_witness :
  subsection (example_row "" "") = EmptyString /\ "core_packs.csv" = "core_packs.csv".
Proof.
  apply (rows_before_first_heading [Some example_row_line]
           [("core_packs.csv", [example_row "" ""])]
           "core_packs.csv" [example_row "" ""] (example_row "" "")).
  - vm_compute. reflexivity.
  - now left.
  - now left.
  - reflexivity.
Defined.
